(** * AI-Interview-Studio: the dialogue orchestrator of [main.py]

    A shallow embedding of the turn parser, the session bookkeeping and the
    three request handlers ([/start], [/chat], [/upload_hr_pdf]) of
    [main.py], together with [stt_handler.transcribe_file] and
    [tts_handler.synthesize], followed by the properties of the
    specification that concern them.

    Conventions.
    - A Python [str] is a list of Unicode code points ([char := N]).
    - Python [bytes] is a list of [Byte.byte].
    - A handler runs in a small state-and-exception monad over the process
      globals ([session_state], [HR_GUIDE]) extended with a ghost trace of
      the calls it makes to the outside world.
    - What the outside world answers (clock, Whisper, the chat model, Murf,
      the file system) is read from a record [World].
    - A [JSONResponse] renders its body when it is built, so building one
      can raise; the response is kept as its content.
    - What a handler writes to the console ([print], [logging]) is not
      part of the model. *)

From Stdlib Require Import Strings.Ascii Strings.String Strings.Byte.
From Stdlib Require Import Numbers.DecimalString Floats.
From Stdlib Require Import List Bool Arith NArith ZArith QArith Qabs Lia.
Import ListNotations.

Set Implicit Arguments.
Set Warnings "-register-all".

(* ================================================================== *)
(** ** Python strings *)
(* ================================================================== *)

Module PyStr.

(** A code point. *)
Definition char := N.

(** A Python [str]. *)
Definition str := list char.

(** [py "..."] is the [str] whose code points are the bytes of an ASCII
    literal. *)
Definition py (s : string) : str :=
  List.map N_of_ascii (list_ascii_of_string s).

(** [str.isspace] on one code point, the set [str.strip()] removes:
    U+0009..U+000D, U+001C..U+0020, U+0085, U+00A0, U+1680,
    U+2000..U+200A, U+2028, U+2029, U+202F, U+205F, U+3000. *)
Definition isspace (c : char) : bool :=
  ((9 <=? c) && (c <=? 13) || (28 <=? c) && (c <=? 32)
   || (c =? 133) || (c =? 160) || (c =? 5760)
   || (8192 <=? c) && (c <=? 8202)
   || (c =? 8232) || (c =? 8233) || (c =? 8239) || (c =? 8287)
   || (c =? 12288))%N.

(** [s == t] on strings. *)
Fixpoint eqb (s t : str) : bool :=
  match s, t with
  | [], [] => true
  | c :: s', d :: t' => (c =? d)%N && eqb s' t'
  | _, _ => false
  end.

(** [s.lstrip()] *)
Fixpoint lstrip (s : str) : str :=
  match s with
  | [] => []
  | c :: s' => if isspace c then lstrip s' else s
  end.

(** [s.rstrip()]: a character is kept when it is not white space or when
    something is kept after it. *)
Fixpoint rstrip (s : str) : str :=
  match s with
  | [] => []
  | c :: s' =>
      match rstrip s' with
      | [] => if isspace c then [] else [c]
      | r => c :: r
      end
  end.

(** [s.strip()] *)
Definition strip (s : str) : str := rstrip (lstrip s).

(** [s.startswith(p)] *)
Fixpoint startswith (s p : str) {struct p} : bool :=
  match p, s with
  | [], _ => true
  | _ :: _, [] => false
  | d :: p', c :: s' => (c =? d)%N && startswith s' p'
  end.

(** [s[n:]] for [0 <= n] *)
Definition slice_from (n : nat) (s : str) : str := skipn n s.

(** [sub in s] *)
Fixpoint contains (sub s : str) : bool :=
  startswith s sub ||
  match s with
  | [] => false
  | _ :: s' => contains sub s'
  end.

(** [s.replace(old, new)] for a non-empty [old]: one scan from the left;
    at an occurrence of [old] it writes [new] and resumes after the
    occurrence ([skip] counts the characters of the occurrence still to be
    passed over), so the occurrences replaced do not overlap and what the
    scan has written is never read again. *)
Fixpoint replace_scan (old new : str) (skip : nat) (s : str) : str :=
  match s with
  | [] => []
  | c :: s' =>
      match skip with
      | S k => replace_scan old new k s'
      | O =>
          if startswith s old
          then new ++ replace_scan old new (length old - 1) s'
          else c :: replace_scan old new 0 s'
      end
  end.

Definition replace (old new s : str) : str := replace_scan old new 0 s.

(** [sep.join(parts)] *)
Fixpoint join (sep : str) (parts : list str) : str :=
  match parts with
  | [] => []
  | [p] => p
  | p :: rest => p ++ sep ++ join sep rest
  end.

(** [bool(s)]: a string is true when it is not empty. *)
Definition truthy (s : str) : bool :=
  match s with [] => false | _ :: _ => true end.

(** The first character of a string is not white space (or there is none). *)
Definition no_leading_space (s : str) : bool :=
  match s with
  | [] => true
  | c :: _ => negb (isspace c)
  end.

(** The last character of a string is not white space (or there is none). *)
Definition no_trailing_space (s : str) : bool :=
  no_leading_space (rev s).

End PyStr.
Import PyStr.

(* ================================================================== *)
(** ** The turn parser, [main.py] lines 206-231 *)
(* ================================================================== *)

Definition HR_MANAGER_TAG : str := py "[HR_MANAGER]".
Definition TECH_LEAD_TAG : str := py "[TECH_LEAD]".
Definition end_token : str := py "<END_INTERVIEW>".
Definition HR_Manager : str := py "HR Manager".
Definition Tech_Lead : str := py "Tech Lead".

(** The panelist named by the tag, and the text that follows the tag. *)
Definition split_speaker (raw : str) : str * str :=
  if startswith raw HR_MANAGER_TAG
  then (HR_Manager, lstrip (slice_from (length HR_MANAGER_TAG) raw))
  else if startswith raw TECH_LEAD_TAG
  then (Tech_Lead, lstrip (slice_from (length TECH_LEAD_TAG) raw))
  else (HR_Manager, raw).

(** [parse_panel_speaker_and_text(raw)] returns
    [(speaker_role, text, interview_done)]. *)
Definition parse_panel_speaker_and_text (raw : str) : str * str * bool :=
  let raw := strip raw in
  let '(speaker_role, text) := split_speaker raw in
  let interview_done := contains end_token text in
  let text := strip (replace end_token [] text) in
  (speaker_role, text, interview_done).

Definition parsed_speaker (raw : str) : str :=
  fst (fst (parse_panel_speaker_and_text raw)).
Definition parsed_text (raw : str) : str :=
  snd (fst (parse_panel_speaker_and_text raw)).
Definition parsed_done (raw : str) : bool :=
  snd (parse_panel_speaker_and_text raw).

(* ================================================================== *)
(** ** Values, bytes and exceptions *)
(* ================================================================== *)

(** A value decoded by [json.loads] (or by [Response.json()]): an object is
    the list of its entries, looked up by key from the left. A number is
    the value of the Python number after decoding: an [int], or a float
    that is finite, is the rational it is ([JNum]); a float that is not
    finite ([NaN], [Infinity], or a literal that overflows, as [1e400]) is
    one of the three [nonfinite] values. *)
Inductive nonfinite : Type := PosInf | NegInf | NaN.

Inductive json : Type :=
| JNull
| JBool (b : bool)
| JNum (q : Q)
| JNonFinite (v : nonfinite)
| JStr (s : str)
| JArr (items : list json)
| JObj (fields : list (str * json)).

(** Python [bytes]. *)
Definition bytes := list byte.

(** A raised exception, with [str(e)]. *)
Inductive exn : Type := Exception (msg : str).

Definition exn_str (e : exn) : str := match e with Exception msg => msg end.

(** A call either returns or raises. *)
Inductive outcome (A : Type) : Type :=
| Returns (a : A)
| Raises (e : exn).
Arguments Returns {A} a.
Arguments Raises {A} e.

(** [d.get(key)] on the entries of a dict: [None] when the key is absent. *)
Fixpoint entries_get (key : str) (fields : list (str * json)) : option json :=
  match fields with
  | [] => None
  | (k, v) :: rest => if PyStr.eqb k key then Some v else entries_get key rest
  end.

(** [data.get(key)]: only a dict has [get]. *)
Definition json_get (data : json) (key : str) : outcome json :=
  match data with
  | JObj fields =>
      match entries_get key fields with
      | Some v => Returns v
      | None => Returns JNull
      end
  | _ => Raises (Exception (py "AttributeError"))
  end.

(** [data[key]]: [KeyError] on a dict without the key, [TypeError] (or
    [IndexError]) on anything else indexed by a string. *)
Definition json_subscript (data : json) (key : str) : outcome json :=
  match data with
  | JObj fields =>
      match entries_get key fields with
      | Some v => Returns v
      | None => Raises (Exception key)
      end
  | _ => Raises (Exception (py "TypeError"))
  end.

(** [bool(v)] *)
Definition json_truthy (v : json) : bool :=
  match v with
  | JNull => false
  | JBool b => b
  | JNum q => negb (Qeq_bool q 0)
  | JNonFinite _ => true
  | JStr s => truthy s
  | JArr items => match items with [] => false | _ => true end
  | JObj fields => match fields with [] => false | _ => true end
  end.

(** Whether [f"{v:.1f}"] formats [v]: floats do, the three that are not
    finite included (["inf"], ["nan"]), and so do booleans; an [int] is first
    converted to a float, which overflows from [2^1024 - 2^970] on, a
    magnitude no finite float has; strings, [None], lists and dicts raise.
    The digits themselves are not modelled. *)
Definition formats_as_float (v : json) : bool :=
  match v with
  | JNum q => negb (Qle_bool (2 ^ 1024 - 2 ^ 970) (Qabs q))
  | JNonFinite _ => true
  | JBool _ => true
  | _ => false
  end.

(** What is spoken or shown: a string, or the closing message
    [f"Interview complete. Overall Score: {overall_score:.1f}/10. Result: {recommendation}."]
    kept as its two arguments. *)
Inductive speech : Type :=
| Lit (s : str)
| ClosingMsg (overall_score recommendation : json).

(** [base64.b64encode(b).decode("utf-8")] *)
Definition b64_alphabet : str :=
  py "ABCDEFGHIJKLMNOPQRSTUVWXYZabcdefghijklmnopqrstuvwxyz0123456789+/".

Definition b64_digit (n : N) : char := nth (N.to_nat n) b64_alphabet 0%N.

Definition b64_pad : char := 61%N.

Fixpoint b64encode (b : bytes) : str :=
  match b with
  | [] => []
  | [x] =>
      let n := Byte.to_N x in
      [b64_digit (n / 4); b64_digit ((n mod 4) * 16); b64_pad; b64_pad]%N
  | [x; y] =>
      let n := Byte.to_N x in
      let m := Byte.to_N y in
      [b64_digit (n / 4); b64_digit ((n mod 4) * 16 + m / 16);
       b64_digit ((m mod 16) * 4); b64_pad]%N
  | x :: y :: z :: rest =>
      let n := Byte.to_N x in
      let m := Byte.to_N y in
      let k := Byte.to_N z in
      ([b64_digit (n / 4); b64_digit ((n mod 4) * 16 + m / 16);
        b64_digit ((m mod 16) * 4 + k / 64); b64_digit (k mod 64)]%N)
      ++ b64encode rest
  end.

(* ================================================================== *)
(** ** Configuration and session state, [main.py] lines 42-86 *)
(* ================================================================== *)

Definition MAX_INTERVIEW_DURATION : Q := 300.

Definition HR_COMPETENCIES : list (str * Q) :=
  [ (py "Technical Knowledge", 0.40);
    (py "Communication Skills", 0.30);
    (py "Problem Solving", 0.20);
    (py "Cultural Fit", 0.10) ].

Definition Candidate : str := py "Candidate".
Definition Interviewer : str := py "Interviewer".

(** An entry of [session_state["history"]]. *)
Record turn : Type := Turn {
  role : str;
  panelist : str;
  text : str
}.

(** The dict [session_state]. *)
Record session : Type := Session {
  start_time : Q;
  current_q_index : Z;
  follow_up_count : Z;
  last_question : str;
  history : list turn
}.

Definition session_state_initial : session :=
  {| start_time := 0;
     current_q_index := 0;
     follow_up_count := 0;
     last_question := [];
     history := [] |}.

(* ================================================================== *)
(** ** The outside world *)
(* ================================================================== *)

(** A message of the chat-completion request. The system message is the
    text of [build_panel_system_prompt()], kept as what it interpolates:
    the guide and the weights. *)
Inductive message : Type :=
| SystemMsg (guide : str) (weights : list (str * Q))
| AssistantMsg (content : str)
| UserMsg (content : str).

(** The evaluation prompt of [generate_final_report], kept as what it
    interpolates. *)
Record report_prompt : Type := ReportPrompt {
  prompt_guide : str;
  prompt_transcript : str;
  prompt_weights : list (str * Q)
}.

(** A [requests.Response]. *)
Record http_response : Type := HttpResponse {
  status_code : Z;
  body_json : outcome json;
  content : bytes
}.

(** What the world answers during one request. *)
Record World : Type := {
  (** [time.time()] *)
  time_time : Q;
  (** writing the upload to [temp_audio/latest_answer.webm] *)
  copyfileobj : outcome unit;
  (** [os.getenv("OPENAI_API_KEY")] *)
  OPENAI_API_KEY : option str;
  (** opening the saved file and [client.audio.transcriptions.create(...).text] *)
  whisper_text : outcome str;
  (** [client.chat.completions.create(...)] of the panel, to its [content] *)
  panel_completion : list message -> outcome str;
  (** [client.chat.completions.create(...)] of the report, with
      [json.loads] applied to its [content] *)
  report_completion : report_prompt -> outcome json;
  (** [config.MURF_API_KEY] *)
  MURF_API_KEY : option str;
  (** [requests.post(MURF_URL, json=payload, ...)] by voice and text *)
  requests_post : str -> speech -> outcome http_response;
  (** [requests.get(audio_url)] *)
  requests_get : json -> outcome http_response;
  (** reading the uploaded guide and writing it to [HR_PDF_PATH] *)
  write_hr_pdf : outcome unit;
  (** opening [HR_PDF_PATH] and extracting the text of its pages *)
  pdf_text : outcome str
}.

(** [not key] for a value of [os.getenv]: unset or empty. *)
Definition key_missing (key : option str) : bool :=
  match key with
  | None => true
  | Some k => negb (truthy k)
  end.

(** A call made to the outside world (ghost state: the program does not
    read it). *)
Inductive event : Type :=
| EvSaveUpload
| EvTranscribe
| EvPanelLLM (messages : list message)
| EvReportLLM (prompt : report_prompt)
| EvSynthesize (said : speech) (speaker_role : str).

(* ================================================================== *)
(** ** Handlers as state-and-exception computations *)
(* ================================================================== *)

(** The module globals, and the trace of calls. *)
Record process : Type := Process {
  session_state : session;
  HR_GUIDE : str;
  trace : list event
}.

(** A computation reads and writes the globals and returns or raises; a
    raise keeps what was written so far. *)
Definition M (A : Type) : Type := process -> outcome A * process.

Definition ret {A} (a : A) : M A := fun p => (Returns a, p).

Definition bind {A B} (m : M A) (k : A -> M B) : M B :=
  fun p =>
    match m p with
    | (Returns a, p') => k a p'
    | (Raises e, p') => (Raises e, p')
    end.

Definition raise {A} (e : exn) : M A := fun p => (Raises e, p).

(** [try: m  except Exception as e: handler(e)] *)
Definition try_except {A} (m : M A) (handler : exn -> M A) : M A :=
  fun p =>
    match m p with
    | (Returns a, p') => (Returns a, p')
    | (Raises e, p') => handler e p'
    end.

(** Lift the answer of the world. *)
Definition lift {A} (o : outcome A) : M A := fun p => (o, p).

Declare Scope py_scope.
Delimit Scope py_scope with py.
Notation "x <- m ;; k" := (bind m (fun x => k))
  (at level 100, m at next level, right associativity) : py_scope.
Notation "m ;; k" := (bind m (fun _ => k))
  (at level 100, right associativity) : py_scope.
Notation "' pat <- m ;; k" := (bind m (fun x => let pat := x in k))
  (at level 100, pat pattern, m at next level, right associativity) : py_scope.
Open Scope py_scope.

Definition get_session : M session := fun p => (Returns (session_state p), p).

Definition get_guide : M str := fun p => (Returns (HR_GUIDE p), p).

Definition put_session (s : session) : M unit :=
  fun p => (Returns tt,
            {| session_state := s; HR_GUIDE := HR_GUIDE p; trace := trace p |}).

Definition put_guide (g : str) : M unit :=
  fun p => (Returns tt,
            {| session_state := session_state p; HR_GUIDE := g;
               trace := trace p |}).

Definition emit (e : event) : M unit :=
  fun p => (Returns tt,
            {| session_state := session_state p; HR_GUIDE := HR_GUIDE p;
               trace := trace p ++ [e] |}).

(** [session_state["history"].append(entry)] *)
Definition history_append (entry : turn) : M unit :=
  s <- get_session ;;
  put_session {| start_time := start_time s;
                 current_q_index := current_q_index s;
                 follow_up_count := follow_up_count s;
                 last_question := last_question s;
                 history := history s ++ [entry] |}.

(** [session_state["last_question"] = q] *)
Definition set_last_question (q : str) : M unit :=
  s <- get_session ;;
  put_session {| start_time := start_time s;
                 current_q_index := current_q_index s;
                 follow_up_count := follow_up_count s;
                 last_question := q;
                 history := history s |}.

(* ================================================================== *)
(** ** [stt_handler.transcribe_file] *)
(* ================================================================== *)

(** The dict it returns (its ["raw"] entry is not used by the caller). *)
Record stt_result : Type := SttResult {
  transcript : str;
  confidence : Q
}.

Definition transcribe_file (w : World) : M stt_result :=
  emit EvTranscribe ;;
  if key_missing (OPENAI_API_KEY w)
  then raise (Exception (py "OPENAI_API_KEY is not set in .env file"))
  else
    try_except
      (transcript_obj_text <- lift (whisper_text w) ;;
       let transcript_text := strip transcript_obj_text in
       ret {| transcript := transcript_text; confidence := 1 |})
      (fun e =>
         raise (Exception (py "OpenAI Transcription failed: " ++ exn_str e))).

(* ================================================================== *)
(** ** [tts_handler.synthesize] *)
(* ================================================================== *)

Definition VOICE_MAP : list (str * str) :=
  [ (py "HR Manager", py "en-US-natalie");
    (py "Tech Lead", py "en-US-cooper");
    (py "Default", py "en-US-natalie") ].

(** [VOICE_MAP.get(speaker_role, VOICE_MAP["Default"])] *)
Fixpoint voice_get (speaker_role : str) (m : list (str * str)) (default : str)
  : str :=
  match m with
  | [] => default
  | (k, v) :: rest =>
      if PyStr.eqb k speaker_role then v else voice_get speaker_role rest default
  end.

(** The exception-free fragment: a call returns or raises, nothing is
    written. *)
Definition obind {A B} (o : outcome A) (k : A -> outcome B) : outcome B :=
  match o with
  | Returns a => k a
  | Raises e => Raises e
  end.

(** The body of the [try] of [synthesize]. *)
Definition murf_request (w : World) (said : speech) (voice_id : str)
  : outcome bytes :=
  obind (requests_post w voice_id said) (fun response =>
  if negb (status_code response =? 200)%Z then Returns []
  else
    obind (body_json response) (fun data =>
    obind (json_get data (py "audioFile")) (fun audio_url =>
    if negb (json_truthy audio_url) then Returns []
    else
      obind (requests_get w audio_url) (fun audio_response =>
      if (status_code audio_response =? 200)%Z
      then Returns (content audio_response)
      else Returns [])))).

(** The bytes [synthesize(text, speaker_role)] returns. *)
Definition synthesize_bytes (w : World) (said : speech) (speaker_role : str)
  : bytes :=
  if key_missing (MURF_API_KEY w) then []
  else
    let voice_id := voice_get speaker_role VOICE_MAP (py "en-US-natalie") in
    match murf_request w said voice_id with
    | Returns audio => audio
    | Raises _ => []
    end.

Definition synthesize (w : World) (said : speech) (speaker_role : str)
  : M bytes :=
  emit (EvSynthesize said speaker_role) ;;
  ret (synthesize_bytes w said speaker_role).

(* ================================================================== *)
(** ** The panel, [main.py] lines 168-203 *)
(* ================================================================== *)

(** One message per turn of the history: interviewer turns are the
    assistant's, candidate turns the user's, any other role is skipped. *)
Fixpoint history_messages (h : list turn) : list message :=
  match h with
  | [] => []
  | entry :: rest =>
      if PyStr.eqb (role entry) Interviewer
      then AssistantMsg (text entry) :: history_messages rest
      else if PyStr.eqb (role entry) Candidate
      then UserMsg (text entry) :: history_messages rest
      else history_messages rest
  end.

(** [build_panel_system_prompt()], as the system message that carries it:
    the text interpolates [HR_GUIDE] and the weights. *)
Definition build_panel_system_prompt : M message :=
  g <- get_guide ;;
  ret (SystemMsg g HR_COMPETENCIES).

Definition build_llm_messages_from_history : M (list message) :=
  system <- build_panel_system_prompt ;;
  s <- get_session ;;
  ret (system :: history_messages (history s)).

Definition generate_next_panel_turn (w : World) : M str :=
  messages <- build_llm_messages_from_history ;;
  emit (EvPanelLLM messages) ;;
  lift (panel_completion w messages).

(* ================================================================== *)
(** ** Responses *)
(* ================================================================== *)

(** The content of a [JSONResponse], with its status code where the
    handler sets one. *)
Inductive response : Type :=
| TurnReply (user_transcript ai_response_text ai_audio_base64 speaker_role : str)
            (is_end : bool)
| ReportReply (user_transcript : str) (ai_response_text : speech)
              (ai_audio_base64 speaker_role : str) (is_end : bool)
              (report : json)
| StartReply (text audio_base64 speaker_role : str)
| UploadReply (status message : str) (code : Z)
| ErrorReply (error : str) (code : Z).

(* ================================================================== *)
(** ** [JSONResponse]: the body as JSON text, encoded in UTF-8 *)
(* ================================================================== *)

(** [JSONResponse(content)] renders its body when it is built, as
    [json.dumps(content, ensure_ascii=False, allow_nan=False,
    separators=(",", ":")).encode("utf-8")]: it raises [ValueError] on a
    float that is not finite and [UnicodeEncodeError] on a surrogate, which
    [ensure_ascii=False] leaves in the text as it is. *)

(** A surrogate code point, U+D800..U+DFFF: UTF-8 encodes none of them. *)
Definition is_surrogate (c : char) : bool :=
  ((55296 <=? c) && (c <=? 57343))%N.

(** [s.encode("utf-8")] succeeds. *)
Definition encodable (s : str) : bool :=
  forallb (fun c => negb (is_surrogate c)) s.

Definition hex_digit (n : N) : char :=
  nth (N.to_nat n) (py "0123456789abcdef") 48%N.

Definition backslash : char := 92%N.
Definition quote : char := 34%N.

(** One character of a string as [json.dumps(..., ensure_ascii=False)]
    writes it. *)
Definition escape_char (c : char) : str :=
  if (c =? 34)%N then [backslash; quote]
  else if (c =? 92)%N then [backslash; backslash]
  else if (c =? 10)%N then [backslash; 110%N]
  else if (c =? 13)%N then [backslash; 114%N]
  else if (c =? 9)%N then [backslash; 116%N]
  else if (c =? 8)%N then [backslash; 98%N]
  else if (c =? 12)%N then [backslash; 102%N]
  else if (c <? 32)%N
       then [backslash; 117%N; 48%N; 48%N;
             hex_digit (c / 16); hex_digit (c mod 16)]%N
       else [c].

Definition json_string (s : str) : str :=
  quote :: flat_map escape_char s ++ [quote].

Definition json_key (k : str) : str := json_string k ++ py ":".

(** The text of the body of a turn reply. *)
Definition turn_body (user_transcript ai_response_text ai_audio_base64
                        speaker_role : str) (is_end : bool) : str :=
  py "{" ++ json_key (py "user_transcript") ++ json_string user_transcript
  ++ py "," ++ json_key (py "ai_response_text") ++ json_string ai_response_text
  ++ py "," ++ json_key (py "ai_audio_base64") ++ json_string ai_audio_base64
  ++ py "," ++ json_key (py "speaker_role") ++ json_string speaker_role
  ++ py "," ++ json_key (py "is_end")
  ++ (if is_end then py "true" else py "false")
  ++ py "}".

(** The text of the body of the reply of [/start]. *)
Definition start_body (text audio_base64 speaker_role : str) : str :=
  py "{" ++ json_key (py "text") ++ json_string text
  ++ py "," ++ json_key (py "audio_base64") ++ json_string audio_base64
  ++ py "," ++ json_key (py "speaker_role") ++ json_string speaker_role
  ++ py "}".

(** The text of the body of the reply of [/upload_hr_pdf]. *)
Definition upload_body (status message : str) : str :=
  py "{" ++ json_key (py "status") ++ json_string status
  ++ py "," ++ json_key (py "message") ++ json_string message
  ++ py "}".

(** The text of the body of a failure. *)
Definition error_body (error : str) : str :=
  py "{" ++ json_key (py "error") ++ json_string error ++ py "}".

(** The number of surrogates a string starts with. *)
Fixpoint surrogates_ahead (s : str) : nat :=
  match s with
  | [] => 0
  | c :: s' => if is_surrogate c then S (surrogates_ahead s') else 0
  end.

(** The first surrogate of [s], counting positions from [i]: its position,
    the character, and the number of surrogates that follow it at once. *)
Fixpoint first_surrogate (i : nat) (s : str) : option (nat * char * nat) :=
  match s with
  | [] => None
  | c :: s' =>
      if is_surrogate c then Some (i, c, surrogates_ahead s')
      else first_surrogate (S i) s'
  end.

(** [str(n)] *)
Definition decimal (n : nat) : str :=
  py (NilZero.string_of_uint (Nat.to_uint n)).

(** The [UnicodeEncodeError] of the first run of surrogates, with its
    [str]: one character is named, a longer run is given by its first and
    last positions. *)
Definition UnicodeEncodeError (start : nat) (c : char) (more : nat) : exn :=
  Exception
    (py "'utf-8' codec can't encode "
     ++ match more with
        | O =>
            py "character '"
            ++ [backslash; 117%N;
                hex_digit (c / 4096); hex_digit ((c / 256) mod 16);
                hex_digit ((c / 16) mod 16); hex_digit (c mod 16)]%N
            ++ py "' in position " ++ decimal start
        | S _ =>
            py "characters in position " ++ decimal start
            ++ py "-" ++ decimal (start + more)
        end
     ++ py ": surrogates not allowed").

(** [body.encode("utf-8")], for its exception. *)
Definition encode_utf8 (body : str) : outcome unit :=
  match first_surrogate 0 body with
  | None => Returns tt
  | Some (start, c, more) => Raises (UnicodeEncodeError start c more)
  end.

(** No number of [v] is a float that is not finite. *)
Fixpoint json_finite (v : json) : bool :=
  match v with
  | JNonFinite _ => false
  | JArr items => forallb json_finite items
  | JObj fields =>
      forallb (fun kv => match kv with (_, x) => json_finite x end) fields
  | _ => true
  end.

(** No string of [v], key or value, holds a surrogate. *)
Fixpoint json_encodable (v : json) : bool :=
  match v with
  | JStr s => encodable s
  | JArr items => forallb json_encodable items
  | JObj fields =>
      forallb
        (fun kv => match kv with (k, x) => encodable k && json_encodable x end)
        fields
  | _ => true
  end.

(** The text of what is spoken or shown encodes. In the closing message
    the score is written in ASCII and the recommendation by [format]: a
    string as it is, any other value by its [repr], which escapes
    surrogates. *)
Definition speech_encodable (said : speech) : bool :=
  match said with
  | Lit s => encodable s
  | ClosingMsg _ (JStr s) => encodable s
  | ClosingMsg _ _ => true
  end.

(** The rendering of a body, for its exception. The text of a turn, start,
    upload or failure body is written out. A report body is not: a number
    is written in ASCII whatever its digits, so the body renders exactly
    when no float of the report is not finite ([json.dumps] runs first) and
    no string of the body holds a surrogate; the texts of its two
    exceptions are abridged (the position of the surrogate is not
    computed). A decoded report is taken to be nested no deeper than
    [json.dumps] can write within the recursion limit. *)
Definition render (content : response) : outcome unit :=
  match content with
  | TurnReply u t a sp e => encode_utf8 (turn_body u t a sp e)
  | StartReply t a sp => encode_utf8 (start_body t a sp)
  | UploadReply status message _ => encode_utf8 (upload_body status message)
  | ErrorReply error _ => encode_utf8 (error_body error)
  | ReportReply u closing a sp _ report =>
      if negb (json_finite report)
      then Raises (Exception
                     (py "Out of range float values are not JSON compliant"))
      else if encodable a && encodable sp && encodable u
              && speech_encodable closing && json_encodable report
      then Returns tt
      else Raises (Exception (py "'utf-8' codec can't encode characters"))
  end.

(** [JSONResponse(content)], or [JSONResponse(content, status_code=code)]. *)
Definition JSONResponse (content : response) : outcome response :=
  match render content with
  | Returns _ => Returns content
  | Raises e => Raises e
  end.

(* ================================================================== *)
(** ** The final report, [main.py] lines 237-346 *)
(* ================================================================== *)

(** One line of the transcript:
    [f"{role}{' - ' + panelist if role == 'Interviewer' else ''}: {text}"]. *)
Definition transcript_line (entry : turn) : str :=
  role entry
  ++ (if PyStr.eqb (role entry) Interviewer
      then py " - " ++ panelist entry else [])
  ++ py ": " ++ text entry.

(** The loop over [reversed(history)] that stops at the first candidate
    turn. *)
Fixpoint first_candidate_text (reversed_history : list turn) : str :=
  match reversed_history with
  | [] => []
  | entry :: rest =>
      if PyStr.eqb (role entry) Candidate
      then text entry
      else first_candidate_text rest
  end.

Definition newline : str := [10%N].

Definition generate_final_report (w : World) : M response :=
  s <- get_session ;;
  g <- get_guide ;;
  let transcript_text := join newline (map transcript_line (history s)) in
  let last_candidate_text := first_candidate_text (rev (history s)) in
  let prompt := {| prompt_guide := g;
                   prompt_transcript := transcript_text;
                   prompt_weights := HR_COMPETENCIES |} in
  try_except
    (emit (EvReportLLM prompt) ;;
     report_json <- lift (report_completion w prompt) ;;
     overall_score <- lift (json_subscript report_json (py "overall_score")) ;;
     (if formats_as_float overall_score then ret tt
      else raise (Exception (py "format"))) ;;
     recommendation <- lift (json_subscript report_json (py "recommendation")) ;;
     let closing_msg := ClosingMsg overall_score recommendation in
     audio_bytes <- synthesize w closing_msg HR_Manager ;;
     let audio_base64 := b64encode audio_bytes in
     lift (JSONResponse
             (ReportReply last_candidate_text closing_msg audio_base64
                          HR_Manager true report_json)))
    (fun _ =>
       lift (JSONResponse (ErrorReply (py "Failed to generate report") 500))).

(* ================================================================== *)
(** ** [/chat], [main.py] lines 352-433 *)
(* ================================================================== *)

(** ["Come again? I didn’t hear anything."] (the apostrophe is U+2019). *)
Definition clarification : str :=
  py "Come again? I didn" ++ [8217%N] ++ py "t hear anything.".

(** [a > b] on timestamps. *)
Definition Qgt_bool (a b : Q) : bool := negb (Qle_bool a b).

Definition chat (w : World) : M response :=
  try_except
    (s <- get_session ;;
     let elapsed_time := time_time w - start_time s in
     if Qgt_bool elapsed_time MAX_INTERVIEW_DURATION
     then generate_final_report w
     else
       emit EvSaveUpload ;;
       lift (copyfileobj w) ;;
       stt <- transcribe_file w ;;
       let user_text := strip (transcript stt) in
       if negb (truthy user_text)
       then
         let ai_text_clean := clarification in
         let speaker_role := HR_Manager in
         history_append {| role := Interviewer; panelist := speaker_role;
                           text := ai_text_clean |} ;;
         audio_bytes <- synthesize w (Lit ai_text_clean) speaker_role ;;
         let audio_base64 := b64encode audio_bytes in
         lift (JSONResponse
                 (TurnReply [] ai_text_clean audio_base64 speaker_role false))
       else
         history_append {| role := Candidate; panelist := [];
                           text := user_text |} ;;
         raw <- generate_next_panel_turn w ;;
         let ai_text_raw := strip raw in
         let '(speaker_role, ai_text_clean, interview_done) :=
           parse_panel_speaker_and_text ai_text_raw in
         (if truthy ai_text_clean
          then
            history_append {| role := Interviewer; panelist := speaker_role;
                              text := ai_text_clean |} ;;
            set_last_question ai_text_clean
          else ret tt) ;;
         if interview_done
         then generate_final_report w
         else
           audio_bytes <- synthesize w (Lit ai_text_clean) speaker_role ;;
           let audio_base64 := b64encode audio_bytes in
           lift (JSONResponse
                   (TurnReply user_text ai_text_clean audio_base64
                              speaker_role false)))
    (fun e => lift (JSONResponse (ErrorReply (exn_str e) 500))).

(* ================================================================== *)
(** ** [/start], [main.py] lines 439-468 *)
(* ================================================================== *)

Definition start_interview_endpoint (w : World) : M response :=
  put_session {| start_time := time_time w;
                 current_q_index := 0;
                 follow_up_count := 0;
                 last_question := [];
                 history := [] |} ;;
  ai_text_raw <- generate_next_panel_turn w ;;
  let '(speaker_role, ai_text_clean, interview_done) :=
    parse_panel_speaker_and_text ai_text_raw in
  history_append {| role := Interviewer; panelist := speaker_role;
                    text := ai_text_clean |} ;;
  set_last_question ai_text_clean ;;
  audio_bytes <- synthesize w (Lit ai_text_clean) speaker_role ;;
  let audio_base64 := b64encode audio_bytes in
  lift (JSONResponse (StartReply ai_text_clean audio_base64 speaker_role)).

(* ================================================================== *)
(** ** [/upload_hr_pdf], [main.py] lines 474-496, and [load_pdf] *)
(* ================================================================== *)

(** [load_pdf(path)]: the extracted text, or the empty string on any
    failure. *)
Definition load_pdf (w : World) : str :=
  match pdf_text w with
  | Returns t => t
  | Raises _ => []
  end.

Definition upload_hr_pdf (w : World) : M response :=
  try_except
    (lift (write_hr_pdf w) ;;
     put_guide (load_pdf w) ;;
     lift (JSONResponse
             (UploadReply (py "ok")
                (py "HR guide uploaded and loaded successfully.") 200)))
    (fun _ =>
       lift (JSONResponse
               (UploadReply (py "error") (py "Failed to upload HR guide.") 500))).

(* ================================================================== *)
(** ** The process: requests in sequence from the initial globals *)
(* ================================================================== *)

Inductive request : Type := GetStart | PostChat | PostUploadHrPdf.

Definition handle (r : request) (w : World) : M response :=
  match r with
  | GetStart => start_interview_endpoint w
  | PostChat => chat w
  | PostUploadHrPdf => upload_hr_pdf w
  end.

(** The globals after module load, [guide] being what [load_pdf] read at
    start-up. *)
Definition process_initial (guide : str) : process :=
  {| session_state := session_state_initial; HR_GUIDE := guide; trace := [] |}.

(** The states the process can be in between two requests. *)
Inductive reachable : process -> Prop :=
| reachable_initial (guide : str) : reachable (process_initial guide)
| reachable_handle (p : process) (r : request) (w : World) :
    reachable p -> reachable (snd (handle r w p)).

(* ================================================================== *)
(** ** [analysis_pipeline.compute_basic_features] *)
(* ================================================================== *)

Definition FILLERS : list str :=
  [py "um"; py "uh"; py "like"; py "you know"; py "so"; py "actually"].

(** [s.count(sub)] for a non-empty [sub]: the occurrences met by one scan
    from the left that resumes after each occurrence ([skip] counts the
    characters of the occurrence still to be passed over). *)
Fixpoint count_scan (sub : str) (skip : nat) (s : str) : nat :=
  match s with
  | [] => 0
  | _ :: s' =>
      match skip with
      | S k => count_scan sub k s'
      | O =>
          if startswith s sub
          then S (count_scan sub (length sub - 1) s')
          else count_scan sub 0 s'
      end
  end.

Definition count (sub s : str) : nat := count_scan sub 0 s.

(** A Python number: an [int], or a float (an IEEE 754 binary64). *)
Inductive py_number : Type :=
| PyInt (z : Z)
| PyFloat (f : float).

(** [float(n)] for a length [n]: exact below [2^53], which is more
    characters than a text has. *)
Definition float_of_nat (n : nat) : float :=
  PrimFloat.of_uint63 (Uint63.of_Z (Z.of_nat n)).

(** [a / b] on two lengths, [b] not 0: the quotient rounded to the nearest
    float. *)
Definition true_div (a b : nat) : float :=
  PrimFloat.div (float_of_nat a) (float_of_nat b).

(** The dict [compute_basic_features] returns; [avg_word_len] is the
    [int] 0 when there is no word, a float otherwise. *)
Record features : Type := Features {
  word_count : nat;
  filler_count : nat;
  avg_word_len : py_number
}.

Section AnalysisPipeline.

(** [str.lower] and the class [\w] of [re] follow the Unicode tables of the
    interpreter, which are taken as given. *)
Variable lower : str -> str.
Variable isword : char -> bool.

(** [re.findall(r"\w+", text)]: the maximal runs of word characters from
    the left; [run] is the run being read. *)
Fixpoint findall_words (run : str) (s : str) : list str :=
  match s with
  | [] => match run with [] => [] | _ => [run] end
  | c :: s' =>
      if isword c
      then findall_words (run ++ [c]) s'
      else match run with
           | [] => findall_words [] s'
           | _ => run :: findall_words [] s'
           end
  end.

Definition compute_basic_features (transcript : str) : features :=
  let text := lower transcript in
  let words := findall_words [] text in
  let word_count := length words in
  let filler_count := list_sum (map (fun f => count f text) FILLERS) in
  let avg_word_len :=
    if (word_count =? 0)%nat then PyInt 0
    else PyFloat (true_div (list_sum (map (@length char) words)) word_count) in
  {| word_count := word_count;
     filler_count := filler_count;
     avg_word_len := avg_word_len |}.

End AnalysisPipeline.

(** [str.lower] and [\w] on ASCII text. *)
Definition ascii_lower (s : str) : str :=
  map (fun c => if ((65 <=? c) && (c <=? 90))%N then (c + 32)%N else c) s.

Definition ascii_word (c : char) : bool :=
  ((48 <=? c) && (c <=? 57) || (65 <=? c) && (c <=? 90)
   || (97 <=? c) && (c <=? 122) || (c =? 95))%N.

(* ================================================================== *)
(** ** Vocabulary of the properties *)
(* ================================================================== *)

(** Every occurrence in [s] of the first character of [tok] begins an
    occurrence of [tok]. *)
Fixpoint opens_only (tok s : str) : bool :=
  match s with
  | [] => true
  | c :: s' =>
      (negb (match tok with [] => false | t :: _ => (c =? t)%N end)
       || startswith s tok)
      && opens_only tok s'
  end.

(** A turn as the data model has it: a candidate turn names no panelist, an
    interviewer turn names one of the two. *)
Definition turn_ok (t : turn) : Prop :=
  (role t = Candidate /\ panelist t = [])
  \/ (role t = Interviewer
      /\ (panelist t = HR_Manager \/ panelist t = Tech_Lead)).

(** The entry [key] of a decoded object, when it is a number. *)
Definition number_at (key : str) (v : json) : option Q :=
  match v with
  | JObj fields =>
      match entries_get key fields with
      | Some (JNum q) => Some q
      | _ => None
      end
  | _ => None
  end.

(** The sum of the scores, each times its weight. *)
Fixpoint weighted_sum (weights : list (str * Q)) (scores : json) : option Q :=
  match weights with
  | [] => Some 0
  | (name, weight) :: rest =>
      match number_at name scores, weighted_sum rest scores with
      | Some score, Some acc => Some (weight * score + acc)
      | _, _ => None
      end
  end.

(** The [overall_score] of a report is the weighted sum of its four
    [scores]. *)
Definition overall_consistent (report : json) : bool :=
  match report with
  | JObj fields =>
      match entries_get (py "scores") fields,
            number_at (py "overall_score") report with
      | Some scores, Some overall =>
          match weighted_sum HR_COMPETENCIES scores with
          | Some expected => Qeq_bool overall expected
          | None => false
          end
      | _, _ => false
      end
  | _ => false
  end.

(** The events a computation adds to the trace of [p]. *)
Definition calls_of {A} (m : M A) (p : process) : list event :=
  skipn (length (trace p)) (trace (snd (m p))).

Definition is_panel_call (e : event) : bool :=
  match e with EvPanelLLM _ => true | _ => false end.

Definition is_transcribe_call (e : event) : bool :=
  match e with EvTranscribe | EvSaveUpload => true | _ => false end.

(** [p] with [evs] added to its trace. *)
Definition add_events (p : process) (evs : list event) : process :=
  {| session_state := session_state p; HR_GUIDE := HR_GUIDE p;
     trace := trace p ++ evs |}.

(** [p] with its session replaced. *)
Definition with_session (p : process) (s : session) : process :=
  {| session_state := s; HR_GUIDE := HR_GUIDE p; trace := trace p |}.

(** [s] with [entries] appended to its history. *)
Definition with_turns (s : session) (entries : list turn) : session :=
  {| start_time := start_time s;
     current_q_index := current_q_index s;
     follow_up_count := follow_up_count s;
     last_question := last_question s;
     history := history s ++ entries |}.

(** The session has run for more than the ceiling when the request
    arrives. *)
Definition timed_out (w : World) (p : process) : bool :=
  Qgt_bool (time_time w - start_time (session_state p)) MAX_INTERVIEW_DURATION.

(** The upload was saved and Whisper heard [heard]. *)
Definition transcribed (w : World) (heard : str) : Prop :=
  copyfileobj w = Returns tt
  /\ key_missing (OPENAI_API_KEY w) = false
  /\ whisper_text w = Returns heard.

(** The messages sent to the panel from the globals of [p]. *)
Definition panel_messages (p : process) : list message :=
  SystemMsg (HR_GUIDE p) HR_COMPETENCIES
  :: history_messages (history (session_state p)).

(** The prompt sent for the report from the globals of [p]. *)
Definition report_prompt_of (p : process) : report_prompt :=
  {| prompt_guide := HR_GUIDE p;
     prompt_transcript :=
       join newline (map transcript_line (history (session_state p)));
     prompt_weights := HR_COMPETENCIES |}.

(** The voice [synthesize] asks Murf for. *)
Definition voice_of (speaker_role : str) : str :=
  voice_get speaker_role VOICE_MAP (py "en-US-natalie").

(** The ways the exchange with Murf fails. *)
Inductive murf_failure (w : World) (said : speech) (voice_id : str) : Prop :=
| post_raises e :
    requests_post w voice_id said = Raises e ->
    murf_failure w said voice_id
| post_refused r :
    requests_post w voice_id said = Returns r ->
    status_code r <> 200%Z ->
    murf_failure w said voice_id
| body_not_json r e :
    requests_post w voice_id said = Returns r ->
    body_json r = Raises e ->
    murf_failure w said voice_id
| body_not_dict r data e :
    requests_post w voice_id said = Returns r ->
    body_json r = Returns data ->
    json_get data (py "audioFile") = Raises e ->
    murf_failure w said voice_id
| audio_url_missing r data url :
    requests_post w voice_id said = Returns r ->
    body_json r = Returns data ->
    json_get data (py "audioFile") = Returns url ->
    json_truthy url = false ->
    murf_failure w said voice_id
| download_raises r data url e :
    requests_post w voice_id said = Returns r ->
    body_json r = Returns data ->
    json_get data (py "audioFile") = Returns url ->
    requests_get w url = Raises e ->
    murf_failure w said voice_id
| download_refused r data url r' :
    requests_post w voice_id said = Returns r ->
    body_json r = Returns data ->
    json_get data (py "audioFile") = Returns url ->
    requests_get w url = Returns r' ->
    status_code r' <> 200%Z ->
    murf_failure w said voice_id.




(** The text of the body of a turn reply up to its audio, which is where
    a surrogate can be. *)
Definition turn_head (user_transcript ai_response_text : str) : str :=
  py "{" ++ json_key (py "user_transcript") ++ json_string user_transcript
  ++ py "," ++ json_key (py "ai_response_text") ++ json_string ai_response_text.

(** The text of the body of the reply of [/start] up to its audio. *)
Definition start_head (text : str) : str :=
  py "{" ++ json_key (py "text") ++ json_string text.



(** [ws] are the maximal runs of word characters of [s], from the left:
    [s] is a gap of other characters, then the first run, which is not
    empty and stops at the end of [s] or before another character, then
    what follows with the runs that remain; after the last run there is
    only a gap. *)
Inductive runs_of (isword : char -> bool) : str -> list str -> Prop :=
| runs_end (gap : str) :
    forallb (fun c => negb (isword c)) gap = true ->
    runs_of isword gap []
| runs_word (gap word rest : str) (ws : list str) :
    forallb (fun c => negb (isword c)) gap = true ->
    word <> [] ->
    forallb isword word = true ->
    match rest with [] => True | c :: _ => isword c = false end ->
    runs_of isword rest ws ->
    runs_of isword (gap ++ word ++ rest) (word :: ws).



(** [/chat] up to the call of the panel, when something was heard: the
    candidate turn is in the history and the panel is asked once. *)
Definition heard_state (p : process) (heard : str) : process :=
  add_events
    (with_session p
       (with_turns (session_state p)
          [ {| role := Candidate; panelist := []; text := strip heard |} ]))
    [EvSaveUpload; EvTranscribe].

(** The globals after the panel's answer [raw] is logged. *)
Definition answered_state (p1 : process) (raw : str) : process :=
  add_events
    (if truthy (parsed_text raw)
     then with_session p1
            {| start_time := start_time (session_state p1);
               current_q_index := current_q_index (session_state p1);
               follow_up_count := follow_up_count (session_state p1);
               last_question := parsed_text raw;
               history := history (session_state p1)
                          ++ [ {| role := Interviewer;
                                  panelist := parsed_speaker raw;
                                  text := parsed_text raw |} ] |}
     else p1)
    [EvPanelLLM (panel_messages p1)].

(** The session [/start] installs before it asks the panel. *)
Definition reset_session (w : World) : session :=
  {| start_time := time_time w;
     current_q_index := 0;
     follow_up_count := 0;
     last_question := [];
     history := [] |}.

(** The session [/start] leaves when the panel opened with [raw]. *)
Definition opened_session (w : World) (raw : str) : session :=
  {| start_time := time_time w;
     current_q_index := 0;
     follow_up_count := 0;
     last_question := parsed_text raw;
     history := [ {| role := Interviewer; panelist := parsed_speaker raw;
                     text := parsed_text raw |} ] |}.

(** Every turn of the history is as the data model has it. *)
Definition history_ok (p : process) : Prop :=
  Forall turn_ok (history (session_state p)).

(** A computation that keeps the history well formed, whether it returns
    or raises. *)
Definition keeps {A} (m : M A) : Prop :=
  forall p, history_ok p -> history_ok (snd (m p)).

(** *** Worlds for the examples *)

(** A response of Murf or of its download link. *)
Definition http_ok (data : json) (audio : bytes) : http_response :=
  {| status_code := 200; body_json := Returns data; content := audio |}.

(** A world with every service up: Whisper hears [heard], the panel says
    [panel_says], the evaluator answers [report], Murf returns [audio]. *)
Definition world_at (now : Q) (heard panel_says : str) (report : json)
  (audio : bytes) : World :=
  {| time_time := now;
     copyfileobj := Returns tt;
     OPENAI_API_KEY := Some (py "sk-test");
     whisper_text := Returns heard;
     panel_completion := fun _ => Returns panel_says;
     report_completion := fun _ => Returns report;
     MURF_API_KEY := Some (py "murf-test");
     requests_post := fun _ _ =>
       Returns (http_ok (JObj [(py "audioFile", JStr (py "https://murf.ai/a.mp3"))]) []);
     requests_get := fun _ => Returns (http_ok JNull audio);
     write_hr_pdf := Returns tt;
     pdf_text := Returns (py "Role: backend engineer") |}.

(** The same world with the panel model failing. *)
Definition world_panel_fails (now : Q) (heard : str) (e : exn) : World :=
  {| time_time := now;
     copyfileobj := Returns tt;
     OPENAI_API_KEY := Some (py "sk-test");
     whisper_text := Returns heard;
     panel_completion := fun _ => Raises e;
     report_completion := fun _ => Raises e;
     MURF_API_KEY := Some (py "murf-test");
     requests_post := fun _ _ => Raises e;
     requests_get := fun _ => Raises e;
     write_hr_pdf := Returns tt;
     pdf_text := Returns [] |}.

(** The same world with Whisper failing. *)
Definition world_whisper_fails (now : Q) (e : exn) : World :=
  {| time_time := now;
     copyfileobj := Returns tt;
     OPENAI_API_KEY := Some (py "sk-test");
     whisper_text := Raises e;
     panel_completion := fun _ => Returns (py "[HR_MANAGER] unused");
     report_completion := fun _ => Returns JNull;
     MURF_API_KEY := Some (py "murf-test");
     requests_post := fun _ _ => Raises e;
     requests_get := fun _ => Raises e;
     write_hr_pdf := Returns tt;
     pdf_text := Returns [] |}.

(** The same world without a Murf key. *)
Definition world_no_murf_key (now : Q) (heard panel_says : str)
  (report : json) : World :=
  {| time_time := now;
     copyfileobj := Returns tt;
     OPENAI_API_KEY := Some (py "sk-test");
     whisper_text := Returns heard;
     panel_completion := fun _ => Returns panel_says;
     report_completion := fun _ => Returns report;
     MURF_API_KEY := None;
     requests_post := fun _ _ => Raises (Exception (py "unreachable"));
     requests_get := fun _ => Raises (Exception (py "unreachable"));
     write_hr_pdf := Returns tt;
     pdf_text := Returns (py "Role: backend engineer") |}.

(** A report whose overall score is not the weighted sum of its scores. *)
Definition report_inconsistent : json :=
  JObj [ (py "scores",
          JObj [ (py "Technical Knowledge", JNum 0);
                 (py "Communication Skills", JNum 0);
                 (py "Problem Solving", JNum 0);
                 (py "Cultural Fit", JNum 0) ]);
         (py "overall_score", JNum 9.5);
         (py "recommendation", JStr (py "Strong Hire"));
         (py "pros", JArr []);
         (py "cons", JArr []);
         (py "summary", JStr (py "n/a")) ].

(** A report whose overall score is the weighted sum of its scores. *)
Definition report_consistent : json :=
  JObj [ (py "scores",
          JObj [ (py "Technical Knowledge", JNum 8);
                 (py "Communication Skills", JNum 6);
                 (py "Problem Solving", JNum 7);
                 (py "Cultural Fit", JNum 9) ]);
         (py "overall_score", JNum 7.3);
         (py "recommendation", JStr (py "Hire"));
         (py "pros", JArr []);
         (py "cons", JArr []);
         (py "summary", JStr (py "n/a")) ].

(** *** Further vocabulary *)

(** The message a turn becomes in the request to the panel. *)
Definition turn_message (t : turn) : message :=
  if PyStr.eqb (role t) Interviewer
  then AssistantMsg (text t)
  else UserMsg (text t).

(** The text of a turn is trimmed, and a candidate turn says something. *)
Definition text_ok (t : turn) : Prop :=
  no_leading_space (text t) = true
  /\ no_trailing_space (text t) = true
  /\ (role t = Candidate -> text t <> []).



Definition is_whisper_call (e : event) : bool :=
  match e with EvTranscribe => true | _ => false end.

Definition is_report_call (e : event) : bool :=
  match e with EvReportLLM _ => true | _ => false end.

Definition is_synthesize_call (e : event) : bool :=
  match e with EvSynthesize _ _ => true | _ => false end.

(** The number of events of a kind. *)
Definition count_calls (kind : event -> bool) (evs : list event) : nat :=
  length (filter kind evs).

(** A world in which Murf answers with [audio] for whatever is said. *)
Definition world_murf_audio (audio : bytes) : World :=
  world_at 42 (py "Hello") (py "[HR_MANAGER] Welcome.") JNull audio.

(* ================================================================== *)
(** ** Facts about strings *)
(* ================================================================== *)

Section StringFacts.

Lemma startswith_app (p rest : str) : startswith (p ++ rest) p = true.
Proof.
  induction p as [|d p IH]; simpl; [reflexivity|].
  now rewrite N.eqb_refl.
Qed.

Lemma startswith_split (s p : str) :
  startswith s p = true -> s = p ++ skipn (length p) s.
Proof.
  revert s; induction p as [|d p IH]; intros s H; simpl in *; [reflexivity|].
  destruct s as [|c s]; [discriminate|].
  apply andb_true_iff in H as [Hc Hs].
  apply N.eqb_eq in Hc; subst d.
  simpl. f_equal. now apply IH.
Qed.

Lemma contains_nil (tok : str) : tok <> [] -> contains tok [] = false.
Proof. destruct tok; [congruence | reflexivity]. Qed.

Lemma contains_cons (tok : str) (c : char) (s : str) :
  contains tok (c :: s) = startswith (c :: s) tok || contains tok s.
Proof. reflexivity. Qed.

Lemma contains_app_r (tok a s : str) :
  contains tok s = true -> contains tok (a ++ s) = true.
Proof.
  intros H; induction a as [|c a IH]; [exact H|].
  simpl app. rewrite contains_cons, IH. apply orb_true_r.
Qed.

Lemma contains_skipn (tok : str) (n : nat) (s : str) :
  contains tok (skipn n s) = true -> contains tok s = true.
Proof.
  intros H. rewrite <- (firstn_skipn n s). now apply contains_app_r.
Qed.

Lemma contains_In (t : char) (tok s : str) :
  contains (t :: tok) s = true -> In t s.
Proof.
  induction s as [|c s IH]; simpl; [discriminate|].
  intros H. apply orb_true_iff in H as [H|H].
  - apply andb_true_iff in H as [H _]. apply N.eqb_eq in H. now left.
  - right. apply IH. exact H.
Qed.

(** *** [lstrip] *)

Lemma lstrip_no_leading (s : str) : no_leading_space (lstrip s) = true.
Proof.
  induction s as [|c s IH]; simpl; [reflexivity|].
  destruct (isspace c) eqn:E; [exact IH | simpl; now rewrite E].
Qed.

Lemma lstrip_fixed (s : str) : no_leading_space s = true -> lstrip s = s.
Proof.
  destruct s as [|c s]; simpl; [reflexivity|].
  now destruct (isspace c).
Qed.

Lemma lstrip_suffix (s : str) : exists n, lstrip s = skipn n s.
Proof.
  induction s as [|c s [n IH]]; simpl.
  - now exists 0%nat.
  - destruct (isspace c); [now exists (S n) | now exists 0%nat].
Qed.

Lemma contains_lstrip (t : char) (tok s : str) :
  isspace t = false ->
  contains (t :: tok) s = true -> contains (t :: tok) (lstrip s) = true.
Proof.
  intros Ht; induction s as [|c s IH]; intros H; [exact H|].
  simpl lstrip. destruct (isspace c) eqn:E; [|exact H].
  rewrite contains_cons in H. apply orb_true_iff in H as [H|H].
  - simpl in H. apply andb_true_iff in H as [H _].
    apply N.eqb_eq in H. congruence.
  - now apply IH.
Qed.

(** *** [rstrip] *)

Lemma no_trailing_space_cons (c : char) (s : str) :
  s <> [] -> no_trailing_space (c :: s) = no_trailing_space s.
Proof.
  intros Hs. unfold no_trailing_space. simpl.
  destruct (rev s) as [|x r] eqn:E; [|reflexivity].
  apply (f_equal (@rev char)) in E. rewrite rev_involutive in E.
  now subst s.
Qed.

Lemma no_trailing_space_app (a b : str) :
  no_trailing_space (a ++ b) = true -> no_trailing_space b = true.
Proof.
  induction a as [|c a IH]; intros H; [exact H|].
  destruct b as [|d b]; [reflexivity|].
  apply IH. rewrite <- H. symmetry. apply no_trailing_space_cons.
  now destruct a.
Qed.

Lemma rstrip_fixed (s : str) : no_trailing_space s = true -> rstrip s = s.
Proof.
  induction s as [|c s IH]; intros H; [reflexivity|].
  destruct s as [|d s].
  - simpl in *. unfold no_trailing_space in H. simpl in H.
    now destruct (isspace c).
  - rewrite no_trailing_space_cons in H by discriminate.
    specialize (IH H). change (rstrip (c :: d :: s)) with
      (match rstrip (d :: s) with
       | [] => if isspace c then [] else [c]
       | r => c :: r
       end).
    now rewrite IH.
Qed.

Lemma rstrip_no_trailing (s : str) : no_trailing_space (rstrip s) = true.
Proof.
  induction s as [|c s IH]; [reflexivity|].
  simpl. destruct (rstrip s) as [|d r] eqn:E.
  - destruct (isspace c) eqn:Ec; [reflexivity|].
    unfold no_trailing_space; simpl. now rewrite Ec.
  - rewrite no_trailing_space_cons by discriminate. exact IH.
Qed.

Lemma rstrip_no_leading (s : str) :
  no_leading_space s = true -> no_leading_space (rstrip s) = true.
Proof.
  destruct s as [|c s]; [reflexivity|]. simpl. intros H.
  destruct (rstrip s); [|exact H].
  destruct (isspace c) eqn:E; [reflexivity|].
  simpl. now rewrite E.
Qed.

Lemma rstrip_app_keep (a b : str) :
  rstrip b <> [] -> rstrip (a ++ b) = a ++ rstrip b.
Proof.
  intros Hb; induction a as [|c a IH]; [reflexivity|].
  simpl. rewrite IH. destruct (a ++ rstrip b) eqn:E; [|reflexivity].
  apply app_eq_nil in E as [_ E]. contradiction.
Qed.

Lemma rstrip_app_drop (a b : str) :
  rstrip b = [] -> rstrip (a ++ b) = rstrip a.
Proof.
  intros Hb; induction a as [|c a IH]; [exact Hb|].
  simpl. now rewrite IH.
Qed.

Lemma rstrip_In (x : char) (s : str) : In x (rstrip s) -> In x s.
Proof.
  induction s as [|c s IH]; [trivial|]. simpl.
  destruct (rstrip s) as [|d r].
  - destruct (isspace c); simpl; tauto.
  - simpl. intros [H|H]; [now left|]. right. apply IH. exact H.
Qed.

Lemma lstrip_In (x : char) (s : str) : In x (lstrip s) -> In x s.
Proof.
  induction s as [|c s IH]; [trivial|]. simpl.
  destruct (isspace c); [intros H; right; now apply IH | trivial].
Qed.

Lemma startswith_rstrip (s tok : str) :
  tok <> [] -> no_trailing_space tok = true ->
  startswith s tok = true -> startswith (rstrip s) tok = true.
Proof.
  intros Hne Hlast H.
  rewrite (startswith_split _ _ H).
  destruct (rstrip (skipn (length tok) s)) as [|d r] eqn:E.
  - rewrite rstrip_app_drop by exact E.
    rewrite rstrip_fixed by exact Hlast.
    rewrite <- (app_nil_r tok) at 1. apply startswith_app.
  - rewrite rstrip_app_keep by (rewrite E; discriminate).
    apply startswith_app.
Qed.

Lemma contains_rstrip (tok s : str) :
  tok <> [] -> no_trailing_space tok = true ->
  contains tok s = true -> contains tok (rstrip s) = true.
Proof.
  intros Hne Hlast; induction s as [|c s IH]; intros H; [exact H|].
  rewrite contains_cons in H. apply orb_true_iff in H as [H|H].
  - apply (startswith_rstrip _ Hne Hlast) in H.
    destruct (rstrip (c :: s)); simpl in *.
    + destruct tok; [congruence | discriminate].
    + rewrite H. reflexivity.
  - specialize (IH H). simpl.
    destruct (rstrip s) as [|d r] eqn:E.
    + rewrite contains_nil in IH by exact Hne. discriminate.
    + rewrite contains_cons, IH. apply orb_true_r.
Qed.

(** *** [strip] *)

Lemma strip_no_leading (s : str) : no_leading_space (strip s) = true.
Proof. apply rstrip_no_leading, lstrip_no_leading. Qed.

Lemma strip_no_trailing (s : str) : no_trailing_space (strip s) = true.
Proof. apply rstrip_no_trailing. Qed.

Lemma strip_fixed (s : str) :
  no_leading_space s = true -> no_trailing_space s = true -> strip s = s.
Proof.
  intros Hl Ht. unfold strip. rewrite lstrip_fixed by exact Hl.
  now apply rstrip_fixed.
Qed.

Lemma strip_strip (s : str) : strip (strip s) = strip s.
Proof. apply strip_fixed; [apply strip_no_leading | apply strip_no_trailing]. Qed.

Lemma strip_In (x : char) (s : str) : In x (strip s) -> In x s.
Proof. intros H. now apply lstrip_In, rstrip_In. Qed.

Lemma contains_strip (t : char) (tok s : str) :
  isspace t = false -> no_trailing_space (t :: tok) = true ->
  contains (t :: tok) s = true -> contains (t :: tok) (strip s) = true.
Proof.
  intros Ht Hlast H. unfold strip.
  apply contains_rstrip; [discriminate | exact Hlast |].
  now apply contains_lstrip.
Qed.

End StringFacts.

(* ================================================================== *)
(** ** Facts about [contains], [replace] and [opens_only] *)
(* ================================================================== *)

Section ReplaceFacts.

Lemma startswith_app_l (a b tok : str) :
  startswith a tok = true -> startswith (a ++ b) tok = true.
Proof.
  intros H. rewrite (startswith_split _ _ H), <- app_assoc.
  apply startswith_app.
Qed.

Lemma contains_app_l (tok a b : str) :
  contains tok a = true -> contains tok (a ++ b) = true.
Proof.
  induction a as [|c a IH]; intros H.
  - destruct tok; [destruct b; reflexivity | discriminate].
  - rewrite contains_cons in H. simpl app. rewrite contains_cons.
    apply orb_true_iff in H as [H|H].
    + change (c :: a ++ b) with ((c :: a) ++ b).
      now rewrite startswith_app_l.
    + rewrite IH by exact H. apply orb_true_r.
Qed.

Lemma rstrip_prefix (s : str) : exists ws, s = rstrip s ++ ws.
Proof.
  induction s as [|c s [ws IH]]; [now exists []|].
  simpl. destruct (rstrip s) as [|d r].
  - destruct (isspace c).
    + now exists (c :: s).
    + exists ws. simpl in *. now f_equal.
  - exists ws. simpl in *. now f_equal.
Qed.

Lemma contains_strip_inv (tok s : str) :
  contains tok (strip s) = true -> contains tok s = true.
Proof.
  unfold strip. intros H.
  destruct (lstrip_suffix s) as [n Hn].
  apply (contains_skipn _ n). rewrite <- Hn.
  destruct (rstrip_prefix (lstrip s)) as [ws Hws].
  rewrite Hws. now apply contains_app_l.
Qed.

Lemma contains_lstrip_inv (tok s : str) :
  contains tok (lstrip s) = true -> contains tok s = true.
Proof.
  destruct (lstrip_suffix s) as [n Hn]. rewrite Hn. apply contains_skipn.
Qed.

(** A tag without the first character of the token hides no occurrence
    of it. *)
Lemma contains_after_prefix (t : char) (tok tag s : str) :
  ~ In t tag -> startswith s tag = true ->
  contains (t :: tok) s = true ->
  contains (t :: tok) (skipn (length tag) s) = true.
Proof.
  revert s; induction tag as [|d tag IH]; intros s Hin Hp H; [exact H|].
  destruct s as [|c s]; [discriminate|].
  simpl in Hp. apply andb_true_iff in Hp as [Hc Hp].
  apply N.eqb_eq in Hc; subst d.
  rewrite contains_cons in H. apply orb_true_iff in H as [H|H].
  - simpl in H. apply andb_true_iff in H as [H _].
    apply N.eqb_eq in H. subst c. exfalso. apply Hin. now left.
  - simpl. apply IH; [|exact Hp|exact H].
    intros Hn. apply Hin. now right.
Qed.

(** *** [replace] *)

Lemma replace_scan_skip (old new : str) (k : nat) (s : str) :
  replace_scan old new k s = replace_scan old new 0 (skipn k s).
Proof.
  revert k; induction s as [|c s IH]; intros k.
  - now destruct k.
  - destruct k as [|k]; [reflexivity|]. simpl skipn. simpl. apply IH.
Qed.

Lemma replace_cons (old new : str) (c : char) (s : str) :
  replace old new (c :: s) =
  if startswith (c :: s) old
  then new ++ replace old new (skipn (length old - 1) s)
  else c :: replace old new s.
Proof.
  unfold replace. simpl replace_scan.
  destruct (startswith (c :: s) old); [|reflexivity].
  now rewrite replace_scan_skip.
Qed.

Lemma replace_absent (old new s : str) :
  contains old s = false -> replace old new s = s.
Proof.
  induction s as [|c s IH]; intros H; [reflexivity|].
  rewrite contains_cons in H. apply orb_false_iff in H as [H1 H2].
  rewrite replace_cons, H1. f_equal. now apply IH.
Qed.

(** *** [opens_only] *)

Lemma opens_only_cons (tok : str) (c : char) (s : str) :
  opens_only tok (c :: s) = true -> opens_only tok s = true.
Proof. simpl. intros H. now apply andb_true_iff in H as [_ H]. Qed.

Lemma opens_only_skipn (tok : str) (n : nat) (s : str) :
  opens_only tok s = true -> opens_only tok (skipn n s) = true.
Proof.
  revert s; induction n as [|n IH]; intros s H; [exact H|].
  destruct s as [|c s]; [exact H|].
  simpl. apply IH. now apply opens_only_cons in H.
Qed.

Lemma opens_only_lstrip (tok s : str) :
  opens_only tok s = true -> opens_only tok (lstrip s) = true.
Proof.
  destruct (lstrip_suffix s) as [n Hn]. rewrite Hn. apply opens_only_skipn.
Qed.

Lemma opens_only_rstrip (tok s : str) :
  tok <> [] -> no_trailing_space tok = true ->
  opens_only tok s = true -> opens_only tok (rstrip s) = true.
Proof.
  intros Hne Hlast; induction s as [|c s IH]; intros H; [reflexivity|].
  pose proof (startswith_rstrip (c :: s) Hne Hlast) as Hstart.
  simpl in H. apply andb_true_iff in H as [Hc Hs].
  specialize (IH Hs).
  assert (Hhead : forall r, rstrip (c :: s) = c :: r ->
            (negb (match tok with [] => false | t :: _ => (c =? t)%N end)
             || startswith (c :: r) tok) = true).
  { intros r Hr. apply orb_true_iff in Hc as [Hc|Hc].
    - rewrite Hc. reflexivity.
    - rewrite <- Hr, Hstart by exact Hc. apply orb_true_r. }
  simpl in *. destruct (rstrip s) as [|d r].
  - destruct (isspace c); [reflexivity|].
    simpl opens_only. rewrite (Hhead [] eq_refl). reflexivity.
  - simpl opens_only. rewrite (Hhead (d :: r) eq_refl).
    simpl in IH. exact IH.
Qed.

Lemma opens_only_strip (tok s : str) :
  tok <> [] -> no_trailing_space tok = true ->
  opens_only tok s = true -> opens_only tok (strip s) = true.
Proof.
  intros Hne Hlast H. unfold strip.
  apply opens_only_rstrip; [exact Hne | exact Hlast |].
  now apply opens_only_lstrip.
Qed.

(** One scan deletes every opener when each opener begins a token. *)
Lemma replace_drops_opener (t : char) (tok : str) (n : nat) :
  forall s, (length s <= n)%nat ->
  opens_only (t :: tok) s = true ->
  ~ In t (replace (t :: tok) [] s).
Proof.
  induction n as [|n IH]; intros s Hlen Hs.
  - destruct s; [intros [] | simpl in Hlen; lia].
  - destruct s as [|c s]; [intros []|].
    simpl in Hlen. rewrite replace_cons.
    pose proof (opens_only_cons _ _ _ Hs) as Hs'.
    destruct (startswith (c :: s) (t :: tok)) eqn:E.
    + simpl app. apply IH.
      * rewrite length_skipn. lia.
      * now apply opens_only_skipn.
    + simpl in Hs. simpl in E. rewrite E in Hs.
      apply andb_true_iff in Hs as [Hc _].
      rewrite orb_false_r in Hc. apply negb_true_iff, N.eqb_neq in Hc.
      intros [H|H]; [congruence|].
      revert H. apply IH; [lia | exact Hs'].
Qed.

End ReplaceFacts.

(* ================================================================== *)
(** ** The turn parsing protocol *)
(* ================================================================== *)

Section TurnParsing.

Lemma end_token_shape :
  exists tok, end_token = 60%N :: tok
              /\ isspace 60%N = false
              /\ no_trailing_space end_token = true.
Proof. eexists. repeat split. Qed.

Lemma tags_without_opener :
  ~ In 60%N HR_MANAGER_TAG /\ ~ In 60%N TECH_LEAD_TAG.
Proof.
  split; intros H; simpl in H;
    repeat (destruct H as [H|H]; [discriminate H|]); exact H.
Qed.

Lemma parsed_text_eq (raw : str) :
  parsed_text raw
  = strip (replace end_token [] (snd (split_speaker (strip raw)))).
Proof.
  unfold parsed_text, parse_panel_speaker_and_text.
  now destruct (split_speaker (strip raw)).
Qed.

Lemma parsed_done_eq (raw : str) :
  parsed_done raw = contains end_token (snd (split_speaker (strip raw))).
Proof.
  unfold parsed_done, parse_panel_speaker_and_text.
  now destruct (split_speaker (strip raw)).
Qed.

Lemma parsed_speaker_eq (raw : str) :
  parsed_speaker raw = fst (split_speaker (strip raw)).
Proof.
  unfold parsed_speaker, parse_panel_speaker_and_text.
  now destruct (split_speaker (strip raw)).
Qed.

Lemma parse_components (raw : str) :
  parse_panel_speaker_and_text raw
  = (parsed_speaker raw, parsed_text raw, parsed_done raw).
Proof.
  unfold parsed_speaker, parsed_text, parsed_done.
  now destruct (parse_panel_speaker_and_text raw) as [[? ?] ?].
Qed.

(** The parser only ever names one of the two panelists. *)
Lemma parsed_speaker_cases (raw : str) :
  parsed_speaker raw = HR_Manager \/ parsed_speaker raw = Tech_Lead.
Proof.
  rewrite parsed_speaker_eq. unfold split_speaker.
  destruct (startswith (strip raw) HR_MANAGER_TAG); [now left|].
  destruct (startswith (strip raw) TECH_LEAD_TAG); [now right | now left].
Qed.

Lemma split_speaker_contains (s : str) :
  contains end_token s = true ->
  contains end_token (snd (split_speaker s)) = true.
Proof.
  destruct end_token_shape as (tok & -> & Hsp & _).
  destruct tags_without_opener as [Hhr Htl].
  intros H. unfold split_speaker, slice_from.
  destruct (startswith s HR_MANAGER_TAG) eqn:E1;
    [|destruct (startswith s TECH_LEAD_TAG) eqn:E2]; cbn [snd].
  - apply contains_lstrip; [exact Hsp|]. now apply contains_after_prefix.
  - apply contains_lstrip; [exact Hsp|]. now apply contains_after_prefix.
  - exact H.
Qed.

Lemma split_speaker_opens_only (s : str) :
  opens_only end_token s = true ->
  opens_only end_token (snd (split_speaker s)) = true.
Proof.
  intros H. unfold split_speaker, slice_from.
  destruct (startswith s HR_MANAGER_TAG);
    [|destruct (startswith s TECH_LEAD_TAG)]; cbn [snd];
    try exact H; now apply opens_only_lstrip, opens_only_skipn.
Qed.

(** C1, as amended. When the raw output contains the end token, wherever
    it stands, the completion flag is true; the cleaned text is what one
    scan from the left leaves after deleting each occurrence it meets,
    trimmed, so it has no leading and no trailing white space; and it
    contains no occurrence of the token when every ['<'] of the raw output
    begins an occurrence of the token (so that the deletions cannot join
    two fragments into a new token). *)
Theorem end_token_anywhere (raw : str) :
  contains end_token raw = true ->
  parsed_done raw = true
  /\ parsed_text raw
     = strip (replace end_token [] (snd (split_speaker (strip raw))))
  /\ no_leading_space (parsed_text raw) = true
  /\ no_trailing_space (parsed_text raw) = true
  /\ (opens_only end_token raw = true ->
      contains end_token (parsed_text raw) = false).
Proof.
  intros Hraw.
  destruct end_token_shape as (tok & Etok & Hsp & Hlast).
  rewrite parsed_done_eq, parsed_text_eq.
  split; [|split; [reflexivity|split; [|split]]].
  - apply split_speaker_contains. rewrite Etok in *.
    now apply contains_strip.
  - apply strip_no_leading.
  - apply strip_no_trailing.
  - intros Hopen.
    assert (Ho : opens_only end_token (snd (split_speaker (strip raw))) = true).
    { apply split_speaker_opens_only, opens_only_strip;
        [rewrite Etok; discriminate | exact Hlast | exact Hopen]. }
    apply not_true_is_false. intros E.
    rewrite Etok in E, Ho.
    apply contains_In, strip_In in E.
    exact (@replace_drops_opener _ _ _ _ (le_n _) Ho E).
Qed.

Lemma end_token_anywhere_witness :
  let raw := py "[TECH_LEAD]  one last thing <END_INTERVIEW> bye <END_INTERVIEW> " in
  parsed_done raw = true
  /\ parsed_text raw
     = strip (replace end_token [] (snd (split_speaker (strip raw))))
  /\ no_leading_space (parsed_text raw) = true
  /\ no_trailing_space (parsed_text raw) = true
  /\ (opens_only end_token raw = true ->
      contains end_token (parsed_text raw) = false).
Proof.
  exact (end_token_anywhere
           (py "[TECH_LEAD]  one last thing <END_INTERVIEW> bye <END_INTERVIEW> ")
           eq_refl).
Defined.

(** C1 as stated fails: deleting the inner token of
    ["<END_<END_INTERVIEW>INTERVIEW>"] joins the two fragments around it
    into a token that the single scan does not see. *)
Lemma end_token_survives_nesting :
  ~ (forall raw : str,
       contains end_token raw = true ->
       parsed_done raw = true
       /\ contains end_token (parsed_text raw) = false
       /\ no_leading_space (parsed_text raw) = true
       /\ no_trailing_space (parsed_text raw) = true).
Proof.
  intros H.
  destruct (H (py "<END_<END_INTERVIEW>INTERVIEW>") eq_refl) as (_ & H1 & _).
  vm_compute in H1. discriminate H1.
Qed.

(** C4, as amended. A trimmed output that starts with neither tag is
    attributed to the HR Manager; its cleaned text is the trimmed output
    with the end token deleted and trimmed again, hence the trimmed output
    itself when the output contains no end token. *)
Theorem unmarked_turn_fallback (raw : str) :
  startswith (strip raw) HR_MANAGER_TAG = false ->
  startswith (strip raw) TECH_LEAD_TAG = false ->
  parsed_speaker raw = HR_Manager
  /\ parsed_text raw = strip (replace end_token [] (strip raw))
  /\ (contains end_token raw = false -> parsed_text raw = strip raw).
Proof.
  intros Hhr Htl.
  assert (E : split_speaker (strip raw) = (HR_Manager, strip raw)).
  { unfold split_speaker. now rewrite Hhr, Htl. }
  rewrite parsed_speaker_eq, parsed_text_eq, E. cbn [fst snd].
  repeat split.
  intros Hno. rewrite replace_absent.
  - apply strip_strip.
  - destruct (contains end_token (strip raw)) eqn:C; [|reflexivity].
    apply contains_strip_inv in C. congruence.
Qed.

Lemma unmarked_turn_fallback_witness :
  let raw := py "  Could you walk me through your last project?  " in
  parsed_speaker raw = HR_Manager
  /\ parsed_text raw = strip (replace end_token [] (strip raw))
  /\ (contains end_token raw = false -> parsed_text raw = strip raw).
Proof.
  exact (unmarked_turn_fallback
           (py "  Could you walk me through your last project?  ")
           eq_refl eq_refl).
Defined.

(** C4 as stated fails on an untagged output that carries the end token:
    the token is deleted, so the cleaned text is not the trimmed input. *)
Lemma unmarked_turn_loses_token :
  ~ (forall raw : str,
       startswith (strip raw) HR_MANAGER_TAG = false ->
       startswith (strip raw) TECH_LEAD_TAG = false ->
       parsed_speaker raw = HR_Manager /\ parsed_text raw = strip raw).
Proof.
  intros H.
  destruct (H (py "Goodbye! <END_INTERVIEW>") eq_refl eq_refl) as [_ H1].
  vm_compute in H1. discriminate H1.
Qed.

(** C5, as amended. A trimmed output [TECH_LEAD_TAG ++ X] is attributed
    to the Tech Lead; its cleaned text is [X] without its leading white
    space, with the end token deleted and trimmed again, hence [X] without
    its leading white space when [X] contains no end token. *)
Theorem tech_lead_turn (raw X : str) :
  strip raw = TECH_LEAD_TAG ++ X ->
  parsed_speaker raw = Tech_Lead
  /\ parsed_text raw = strip (replace end_token [] (lstrip X))
  /\ (contains end_token X = false -> parsed_text raw = lstrip X).
Proof.
  intros HX.
  assert (E : split_speaker (strip raw) = (Tech_Lead, lstrip X)).
  { rewrite HX. unfold split_speaker, slice_from.
    change (startswith (TECH_LEAD_TAG ++ X) HR_MANAGER_TAG) with false.
    now rewrite startswith_app. }
  rewrite parsed_speaker_eq, parsed_text_eq, E. cbn [fst snd].
  repeat split.
  intros Hno. rewrite replace_absent.
  - apply strip_fixed; [apply lstrip_no_leading|].
    destruct (lstrip_suffix X) as [n Hn].
    apply (no_trailing_space_app (TECH_LEAD_TAG ++ firstn n X)).
    rewrite Hn, <- app_assoc, firstn_skipn, <- HX.
    apply strip_no_trailing.
  - destruct (contains end_token (lstrip X)) eqn:C; [|reflexivity].
    apply contains_lstrip_inv in C. congruence.
Qed.

Lemma tech_lead_turn_witness :
  let raw := py " [TECH_LEAD]   Tell me about a scaling challenge you solved. " in
  let X := py "   Tell me about a scaling challenge you solved." in
  parsed_speaker raw = Tech_Lead
  /\ parsed_text raw = strip (replace end_token [] (lstrip X))
  /\ (contains end_token X = false -> parsed_text raw = lstrip X).
Proof.
  exact (@tech_lead_turn
           (py " [TECH_LEAD]   Tell me about a scaling challenge you solved. ")
           (py "   Tell me about a scaling challenge you solved.")
           eq_refl).
Defined.

(** C5 as stated fails when [X] carries the end token: the token is
    deleted and the text trimmed again, so the cleaned text is shorter
    than [X] without its leading white space. *)
Lemma tech_lead_turn_loses_token :
  ~ (forall raw X : str,
       strip raw = TECH_LEAD_TAG ++ X ->
       parsed_speaker raw = Tech_Lead /\ parsed_text raw = lstrip X).
Proof.
  intros H.
  destruct (H (py "[TECH_LEAD] That is all. <END_INTERVIEW>")
              (py " That is all. <END_INTERVIEW>") eq_refl) as [_ H1].
  vm_compute in H1. discriminate H1.
Qed.

Example parse_tech_lead_scenario :
  parse_panel_speaker_and_text
    (py "[TECH_LEAD] Tell me about a scaling challenge you solved.")
  = (Tech_Lead, py "Tell me about a scaling challenge you solved.", false).
Proof. reflexivity. Qed.

Example parse_goodbye_scenario :
  parse_panel_speaker_and_text
    (py "[HR_MANAGER] Thanks, we'll be in touch! <END_INTERVIEW>")
  = (HR_Manager, py "Thanks, we'll be in touch!", true).
Proof. reflexivity. Qed.

Example parse_nested_token :
  parse_panel_speaker_and_text (py "<END_<END_INTERVIEW>INTERVIEW>")
  = (HR_Manager, py "<END_INTERVIEW>", true).
Proof. reflexivity. Qed.

Example parse_two_tokens :
  let raw :=
    py "[TECH_LEAD]  one last thing <END_INTERVIEW> bye <END_INTERVIEW> " in
  opens_only end_token raw = true
  /\ parse_panel_speaker_and_text raw
     = (Tech_Lead, py "one last thing  bye", true).
Proof. split; reflexivity. Qed.

Example parse_token_before_tag :
  parse_panel_speaker_and_text (py "<END_INTERVIEW>[TECH_LEAD] hello")
  = (HR_Manager, py "[TECH_LEAD] hello", true).
Proof. reflexivity. Qed.

Example parse_unicode_space :
  parse_panel_speaker_and_text
    ([160%N; 8195%N] ++ py "[HR_MANAGER]" ++ [12288%N] ++ py "Hello" ++ [133%N])
  = (HR_Manager, py "Hello", false).
Proof. reflexivity. Qed.

End TurnParsing.

(* ================================================================== *)
(** ** Rendering of the bodies *)
(* ================================================================== *)

Section Rendering.

Lemma encodable_app (a b : str) :
  encodable (a ++ b) = encodable a && encodable b.
Proof. apply forallb_app. Qed.

Lemma is_surrogate_byte (c : char) : (c < 256)%N -> is_surrogate c = false.
Proof.
  intros H. unfold is_surrogate. apply andb_false_iff. left.
  apply N.leb_gt. lia.
Qed.

Lemma encodable_bytes (s : str) :
  Forall (fun c => (c < 256)%N) s -> encodable s = true.
Proof.
  induction 1 as [|c s Hc Hs IH]; [reflexivity|].
  simpl. now rewrite (is_surrogate_byte Hc).
Qed.

Lemma py_bytes (s : string) : Forall (fun c => (c < 256)%N) (py s).
Proof.
  unfold py. apply Forall_forall. intros c Hc.
  apply in_map_iff in Hc as (a & <- & _). apply N_ascii_bounded.
Qed.

Lemma encodable_py (s : string) : encodable (py s) = true.
Proof. apply encodable_bytes, py_bytes. Qed.

Lemma nth_py_byte (n : nat) (s : string) (d : char) :
  (d < 256)%N -> (nth n (py s) d < 256)%N.
Proof.
  intros Hd. destruct (nth_in_or_default n (py s) d) as [H| ->]; [|exact Hd].
  exact (proj1 (Forall_forall _ _) (py_bytes s) _ H).
Qed.

Lemma hex_digit_byte (n : N) : is_surrogate (hex_digit n) = false.
Proof. apply is_surrogate_byte, nth_py_byte. reflexivity. Qed.

Lemma b64_digit_byte (n : N) : is_surrogate (b64_digit n) = false.
Proof. apply is_surrogate_byte, nth_py_byte. reflexivity. Qed.

Lemma encodable_escape_char (c : char) :
  encodable (escape_char c) = negb (is_surrogate c).
Proof.
  unfold escape_char.
  repeat match goal with
         | |- context [(c =? ?k)%N] =>
             destruct (N.eqb_spec c k) as [->|?]; [reflexivity|]
         end.
  destruct (N.ltb_spec c 32) as [H|H].
  - cbn [encodable forallb]. rewrite !hex_digit_byte.
    rewrite (@is_surrogate_byte c) by lia. reflexivity.
  - cbn [encodable forallb]. apply andb_true_r.
Qed.

Lemma encodable_escaped (s : str) :
  encodable (flat_map escape_char s) = encodable s.
Proof.
  induction s as [|c s IH]; [reflexivity|].
  cbn [flat_map]. rewrite encodable_app, encodable_escape_char, IH.
  reflexivity.
Qed.

Lemma encodable_json_string (s : str) : encodable (json_string s) = encodable s.
Proof.
  change (encodable ([quote] ++ (flat_map escape_char s ++ [quote]))
          = encodable s).
  rewrite !encodable_app, encodable_escaped.
  change (encodable [quote]) with true. cbn [andb]. apply andb_true_r.
Qed.

Lemma encodable_json_key (k : string) : encodable (json_key (py k)) = true.
Proof.
  unfold json_key.
  now rewrite encodable_app, encodable_json_string, !encodable_py.
Qed.

Lemma encodable_b64encode (b : bytes) : encodable (b64encode b) = true.
Proof.
  induction b as [b IH] using (induction_ltof1 _ (@length byte)).
  destruct b as [|x [|y [|z rest]]]; [reflexivity| | |];
    cbn [b64encode]; cbv zeta;
    try (cbn [encodable forallb]; now rewrite !b64_digit_byte).
  rewrite encodable_app, IH by (unfold ltof; simpl; lia).
  cbn [encodable forallb]. now rewrite !b64_digit_byte.
Qed.

Lemma encodable_speaker (raw : str) : encodable (parsed_speaker raw) = true.
Proof. destruct (parsed_speaker_cases raw) as [-> | ->]; reflexivity. Qed.

Lemma encodable_speaker_of (raw speaker said : str) (done : bool) :
  parse_panel_speaker_and_text raw = (speaker, said, done) ->
  encodable speaker = true.
Proof.
  intros E. replace speaker with (parsed_speaker raw).
  - apply encodable_speaker.
  - unfold parsed_speaker. now rewrite E.
Qed.

Lemma surrogates_ahead_app (x y : str) :
  encodable y = true -> surrogates_ahead (x ++ y) = surrogates_ahead x.
Proof.
  intros Hy. induction x as [|c x IH]; cbn [app surrogates_ahead].
  - destruct y as [|d y]; [reflexivity|]. cbn [surrogates_ahead].
    cbn [encodable forallb] in Hy. apply andb_true_iff in Hy as [Hd _].
    apply negb_true_iff in Hd. now rewrite Hd.
  - now rewrite IH.
Qed.

Lemma first_surrogate_none (i : nat) (s : str) :
  first_surrogate i s = None <-> encodable s = true.
Proof.
  revert i; induction s as [|c s IH]; intros i; cbn [first_surrogate].
  - now split.
  - cbn [encodable forallb]. destruct (is_surrogate c); cbn [negb andb].
    + split; discriminate.
    + apply IH.
Qed.

Lemma first_surrogate_app (i : nat) (x y : str) :
  encodable y = true -> first_surrogate i (x ++ y) = first_surrogate i x.
Proof.
  intros Hy. revert i; induction x as [|c x IH]; intros i;
    cbn [app first_surrogate].
  - now apply first_surrogate_none.
  - now rewrite IH, surrogates_ahead_app.
Qed.

(** What follows the last surrogate does not show in the exception. *)
Lemma encode_utf8_app (x y : str) :
  encodable y = true -> encode_utf8 (x ++ y) = encode_utf8 x.
Proof. intros Hy. unfold encode_utf8. now rewrite first_surrogate_app. Qed.

Lemma encode_utf8_encodable (s : str) :
  encodable s = true -> encode_utf8 s = Returns tt.
Proof.
  intros H. unfold encode_utf8.
  now rewrite (proj2 (first_surrogate_none 0 s) H).
Qed.

Lemma encodable_decimal (n : nat) : encodable (decimal n) = true.
Proof. apply encodable_py. Qed.

(** The text of the exception is ASCII: the surrogate is named by its
    escape. *)
Lemma encodable_UnicodeEncodeError (i : nat) (c : char) (more : nat) :
  encodable (exn_str (UnicodeEncodeError i c more)) = true.
Proof.
  unfold UnicodeEncodeError, exn_str. destruct more as [|more];
    rewrite !encodable_app, ?encodable_py, ?encodable_decimal;
    [|reflexivity].
  cbn [encodable forallb]. now rewrite !hex_digit_byte.
Qed.

Lemma encode_utf8_raises (s : str) (e : exn) :
  encode_utf8 s = Raises e ->
  encodable s = false
  /\ (exists i c more, e = UnicodeEncodeError i c more)
  /\ encodable (exn_str e) = true.
Proof.
  unfold encode_utf8. intros H.
  destruct (first_surrogate 0 s) as [[[i c] more]|] eqn:E; [|discriminate H].
  injection H as <-. repeat split.
  - apply not_true_is_false. intros Hs.
    apply (first_surrogate_none 0) in Hs. congruence.
  - now exists i, c, more.
  - apply encodable_UnicodeEncodeError.
Qed.

Lemma encode_utf8_returns (s : str) :
  encode_utf8 s = Returns tt <-> encodable s = true.
Proof.
  split; [|apply encode_utf8_encodable].
  intros H. destruct (encodable s) eqn:E; [reflexivity|].
  unfold encode_utf8 in H.
  destruct (first_surrogate 0 s) as [[[i c] more]|] eqn:F; [discriminate H|].
  apply first_surrogate_none in F. congruence.
Qed.



(** The audio and the speaker come last in the body of a turn: when they
    encode, the exception is that of what comes before. *)
Lemma render_turn (u t a sp : str) (e : bool) :
  encodable a = true -> encodable sp = true ->
  render (TurnReply u t a sp e) = encode_utf8 (turn_head u t).
Proof.
  intros Ha Hsp. cbn [render]. unfold turn_body.
  change (py "{" ++ json_key (py "user_transcript") ++ json_string u
          ++ py "," ++ json_key (py "ai_response_text") ++ json_string t
          ++ ?rest)
    with (py "{" ++ (json_key (py "user_transcript") ++ (json_string u
          ++ (py "," ++ (json_key (py "ai_response_text") ++ (json_string t
          ++ rest)))))).
  rewrite !(app_assoc _ _ (py "," ++ json_key (py "ai_audio_base64") ++ _)).
  rewrite <- !app_assoc.
  replace (py "{" ++ json_key (py "user_transcript") ++ json_string u
           ++ py "," ++ json_key (py "ai_response_text") ++ json_string t
           ++ py "," ++ json_key (py "ai_audio_base64") ++ json_string a
           ++ py "," ++ json_key (py "speaker_role") ++ json_string sp
           ++ py "," ++ json_key (py "is_end")
           ++ (if e then py "true" else py "false") ++ py "}")
    with (turn_head u t
          ++ (py "," ++ json_key (py "ai_audio_base64") ++ json_string a
              ++ py "," ++ json_key (py "speaker_role") ++ json_string sp
              ++ py "," ++ json_key (py "is_end")
              ++ (if e then py "true" else py "false") ++ py "}"))
    by (unfold turn_head; now rewrite <- !app_assoc).
  apply encode_utf8_app.
  rewrite !encodable_app, !encodable_json_key, !encodable_json_string,
    !encodable_py, Ha, Hsp.
  now destruct e.
Qed.

Lemma render_start (t a sp : str) :
  encodable a = true -> encodable sp = true ->
  render (StartReply t a sp) = encode_utf8 (start_head t).
Proof.
  intros Ha Hsp. cbn [render]. unfold start_body.
  replace (py "{" ++ json_key (py "text") ++ json_string t
           ++ py "," ++ json_key (py "audio_base64") ++ json_string a
           ++ py "," ++ json_key (py "speaker_role") ++ json_string sp
           ++ py "}")
    with (start_head t
          ++ (py "," ++ json_key (py "audio_base64") ++ json_string a
              ++ py "," ++ json_key (py "speaker_role") ++ json_string sp
              ++ py "}"))
    by (unfold start_head; now rewrite <- !app_assoc).
  apply encode_utf8_app.
  now rewrite !encodable_app, !encodable_json_key, !encodable_json_string,
    !encodable_py, Ha, Hsp.
Qed.

(** The audio does not show in whether a report renders, nor in its
    exception. *)
Lemma render_report (u : str) (closing : speech) (a sp : str) (e : bool)
  (report : json) :
  encodable a = true -> encodable sp = true ->
  render (ReportReply u closing a sp e report)
  = render (ReportReply u closing [] [] e report).
Proof. intros Ha Hsp. cbn [render]. now rewrite Ha, Hsp. Qed.




Lemma render_error (error : str) (code : Z) :
  render (ErrorReply error code) = Returns tt <-> encodable error = true.
Proof.
  cbn [render]. rewrite encode_utf8_returns. unfold error_body.
  now rewrite !encodable_app, encodable_json_key, encodable_json_string,
    !encodable_py, andb_true_r.
Qed.

(** The text of every exception of [render] is ASCII. *)
Lemma render_raises (content : response) (e : exn) :
  render content = Raises e -> encodable (exn_str e) = true.
Proof.
  destruct content; cbn [render]; try (intros H; now apply encode_utf8_raises in H).
  destruct (negb (json_finite report)).
  - intros H. injection H as <-. reflexivity.
  - destruct (_ && _); [discriminate|]. intros H. injection H as <-. reflexivity.
Qed.

(** So the failure reply that quotes it renders. *)
Lemma render_error_of_raise (content : response) (e : exn) (code : Z) :
  render content = Raises e ->
  JSONResponse (ErrorReply (exn_str e) code)
  = Returns (ErrorReply (exn_str e) code).
Proof.
  intros H. unfold JSONResponse.
  now rewrite (proj2 (render_error (exn_str e) code) (render_raises _ H)).
Qed.

Lemma JSONResponse_returns (content r : response) :
  JSONResponse content = Returns r -> r = content.
Proof.
  unfold JSONResponse. destruct (render content); [|discriminate].
  now intros H; injection H as <-.
Qed.

Lemma JSONResponse_error (error : str) (code : Z) :
  encodable error = true ->
  JSONResponse (ErrorReply error code) = Returns (ErrorReply error code).
Proof.
  intros H. unfold JSONResponse. now rewrite (proj2 (render_error error code) H).
Qed.


End Rendering.

(* ================================================================== *)
(** ** Runs of the handlers *)
(* ================================================================== *)

(** Unfolding of one step of a handler. *)
Ltac step_handler :=
  unfold synthesize, history_append, set_last_question;
  unfold try_except, bind, get_session, get_guide, put_session, put_guide,
    emit, lift, ret, raise;
  cbn [session_state HR_GUIDE trace fst snd start_time current_q_index
       follow_up_count last_question history transcript].

Section Runs.

Lemma add_events_nil (p : process) : add_events p [] = p.
Proof. destruct p. unfold add_events. simpl. now rewrite app_nil_r. Qed.


Lemma calls_of_run {A} (m : M A) (p p' : process) (o : outcome A)
  (evs : list event) :
  m p = (o, add_events p' evs) -> trace p' = trace p ->
  calls_of m p = evs.
Proof.
  intros H Ht. unfold calls_of. rewrite H. simpl. rewrite Ht.
  rewrite skipn_app, skipn_all, Nat.sub_diag. reflexivity.
Qed.


Lemma JSONResponse_failure :
  JSONResponse (ErrorReply (py "Failed to generate report") 500)
  = Returns (ErrorReply (py "Failed to generate report") 500).
Proof. reflexivity. Qed.

(** The report generator returns a reply, never raises, and leaves the
    session as it found it: either the evaluation cannot be used and the
    reply is the failure, or the evaluation is spoken and the reply carries
    the decoded object unchanged, unless that reply cannot be rendered, in
    which case the reply is the failure again. *)
Lemma generate_final_report_run (w : World) (p : process) :
  let prompt := report_prompt_of p in
  let failure := ErrorReply (py "Failed to generate report") 500 in
  (generate_final_report w p
   = (Returns failure, add_events p [EvReportLLM prompt])
   /\ forall report overall recommendation,
        report_completion w prompt = Returns report ->
        json_subscript report (py "overall_score") = Returns overall ->
        json_subscript report (py "recommendation") = Returns recommendation ->
        formats_as_float overall = false)
  \/ (exists report overall recommendation,
        report_completion w prompt = Returns report
        /\ json_subscript report (py "overall_score") = Returns overall
        /\ formats_as_float overall = true
        /\ json_subscript report (py "recommendation") = Returns recommendation
        /\ generate_final_report w p
           = (Returns
                (let reply :=
                   ReportReply
                     (first_candidate_text (rev (history (session_state p))))
                     (ClosingMsg overall recommendation)
                     (b64encode
                        (synthesize_bytes w (ClosingMsg overall recommendation)
                           HR_Manager))
                     HR_Manager true report in
                 match render reply with
                 | Returns _ => reply
                 | Raises _ => failure
                 end),
              add_events p [EvReportLLM prompt;
                            EvSynthesize (ClosingMsg overall recommendation)
                              HR_Manager])).
Proof.
  intros prompt failure.
  unfold generate_final_report, synthesize.
  unfold try_except, bind, get_session, get_guide, emit, lift, ret, raise.
  fold (report_prompt_of p). fold prompt. fold failure.
  cbn [session_state HR_GUIDE trace].
  unfold failure at 1 2 3 4. rewrite JSONResponse_failure. fold failure.
  destruct (report_completion w prompt) as [report|e] eqn:Erep.
  2:{ left. split; [reflexivity|]. intros; discriminate. }
  destruct (json_subscript report (py "overall_score")) as [overall|e] eqn:Eov.
  2:{ left. split; [reflexivity|]. intros ? ? ? H1 H2. congruence. }
  destruct (formats_as_float overall) eqn:Efmt.
  2:{ left. split; [reflexivity|]. intros ? ? ? H1 H2. congruence. }
  destruct (json_subscript report (py "recommendation")) as [rec|e] eqn:Erec.
  2:{ left. split; [reflexivity|]. intros ? ? ? H1 H2 H3. congruence. }
  right. exists report, overall, rec. repeat split; try assumption.
  cbv zeta. unfold JSONResponse, add_events.
  cbn [session_state HR_GUIDE trace].
  destruct (render _); now rewrite <- app_assoc.
Qed.


Lemma generate_final_report_returns (w : World) (p : process) :
  exists r evs,
    generate_final_report w p = (Returns r, add_events p evs)
    /\ existsb is_transcribe_call evs = false
    /\ existsb is_panel_call evs = false.
Proof.
  destruct (generate_final_report_run w p)
    as [[H _]|(report & overall & rec & _ & _ & _ & _ & H)];
    rewrite H; eexists; eexists; repeat split.
Qed.




Lemma report_passes_handler (w : World) (h : exn -> M response)
  (p : process) :
  try_except (generate_final_report w) h p = generate_final_report w p.
Proof.
  unfold try_except.
  destruct (generate_final_report_returns w p) as (r & evs & -> & _).
  reflexivity.
Qed.

Lemma parse_of_stripped (raw : str) :
  parse_panel_speaker_and_text (strip raw)
  = (parsed_speaker raw, parsed_text raw, parsed_done raw).
Proof.
  rewrite parse_components.
  now rewrite parsed_speaker_eq, parsed_text_eq, parsed_done_eq, strip_strip,
    <- parsed_speaker_eq, <- parsed_text_eq, <- parsed_done_eq.
Qed.

(** [/chat] when something was heard. A turn reply that cannot be
    rendered raises inside the [try]: the reply is then the failure that
    quotes the exception, after the turns were recorded and the text was
    spoken. *)
Lemma chat_heard_run (w : World) (p : process) (heard : str) :
  timed_out w p = false -> transcribed w heard -> strip heard <> [] ->
  let p1 := heard_state p heard in
  chat w p
  = match panel_completion w (panel_messages p1) with
    | Raises e =>
        (JSONResponse (ErrorReply (exn_str e) 500),
         add_events p1 [EvPanelLLM (panel_messages p1)])
    | Returns raw =>
        if parsed_done raw
        then generate_final_report w (answered_state p1 raw)
        else
          (Returns
             (match encode_utf8 (turn_head (strip heard) (parsed_text raw)) with
              | Returns _ =>
                  TurnReply (strip heard) (parsed_text raw)
                    (b64encode
                       (synthesize_bytes w (Lit (parsed_text raw))
                          (parsed_speaker raw)))
                    (parsed_speaker raw) false
              | Raises e => ErrorReply (exn_str e) 500
              end),
           add_events (answered_state p1 raw)
             [EvSynthesize (Lit (parsed_text raw)) (parsed_speaker raw)])
    end.
Proof.
  intros Htime (Hcopy & Hkey & Hw) Hsome p1. subst p1.
  unfold chat, try_except at 1, bind at 1, get_session.
  fold (timed_out w p). rewrite Htime.
  unfold transcribe_file, generate_next_panel_turn,
    build_llm_messages_from_history,
    build_panel_system_prompt.
  step_handler. rewrite Hcopy, Hkey, Hw. cbn [transcript].
  rewrite strip_strip.
  assert (Htr : truthy (strip heard) = true)
    by (destruct (strip heard); [congruence | reflexivity]).
  rewrite Htr. cbn [negb].
  unfold answered_state, heard_state, panel_messages, add_events,
    with_session, with_turns.
  cbn [session_state HR_GUIDE trace history start_time current_q_index
       follow_up_count last_question].
  destruct (panel_completion w _) as [raw|e].
  2:{ now rewrite <- !app_assoc. }
  rewrite parse_of_stripped.
  destruct (truthy (parsed_text raw)), (parsed_done raw);
    cbn [session_state HR_GUIDE trace history start_time current_q_index
         follow_up_count last_question];
    rewrite <- ?app_assoc; cbn [app];
    try exact (report_passes_handler w _ _);
    unfold JSONResponse at 1;
    rewrite render_turn by (apply encodable_b64encode || apply encodable_speaker);
    (destruct (encode_utf8 (turn_head (strip heard) (parsed_text raw)))
       as [[]|e] eqn:E; [reflexivity|]);
    apply encode_utf8_raises in E as (_ & _ & E);
    now rewrite (@JSONResponse_error _ 500 E).
Qed.

(** [/start] *)
Lemma start_run (w : World) (p : process) :
  let p0 := with_session p (reset_session w) in
  start_interview_endpoint w p
  = match panel_completion w (panel_messages p0) with
    | Raises e => (Raises e, add_events p0 [EvPanelLLM (panel_messages p0)])
    | Returns raw =>
        (match encode_utf8 (start_head (parsed_text raw)) with
         | Returns _ =>
             Returns
               (StartReply (parsed_text raw)
                  (b64encode
                     (synthesize_bytes w (Lit (parsed_text raw))
                        (parsed_speaker raw)))
                  (parsed_speaker raw))
         | Raises e => Raises e
         end,
         add_events (with_session p (opened_session w raw))
           [EvPanelLLM (panel_messages p0);
            EvSynthesize (Lit (parsed_text raw)) (parsed_speaker raw)])
    end.
Proof.
  intros p0. subst p0.
  unfold start_interview_endpoint, generate_next_panel_turn,
    build_llm_messages_from_history,
    build_panel_system_prompt.
  step_handler.
  unfold panel_messages, add_events, with_session, reset_session,
    opened_session.
  cbn [session_state HR_GUIDE trace history].
  destruct (panel_completion w _) as [raw|e]; [|reflexivity].
  rewrite parse_components. step_handler.
  unfold JSONResponse.
  rewrite render_start by (apply encodable_b64encode || apply encodable_speaker).
  fold (parsed_text raw). fold (parsed_speaker raw).
  now rewrite <- ?app_assoc.
Qed.


End Runs.

(* ================================================================== *)
(** ** The orchestrator: silence, time-out and failure *)
(* ================================================================== *)

Section Orchestrator.








(** C7, as amended. A report that the generator returns is the object
    decoded from the evaluator's answer to the prompt, unchanged; the
    weights it was given are the fixed ones; the closing message quotes the
    [overall_score] entry of that object, which is only required to format
    as a number. The generator neither computes the weighted sum nor
    compares [overall_score] with it. *)
Theorem report_is_the_evaluators (w : World) (p p' : process)
  (user_transcript : str) (closing : speech) (audio speaker : str)
  (is_end : bool) (report : json) :
  generate_final_report w p
  = (Returns (ReportReply user_transcript closing audio speaker is_end report),
     p') ->
  report_completion w (report_prompt_of p) = Returns report
  /\ prompt_weights (report_prompt_of p) = HR_COMPETENCIES
  /\ (exists overall recommendation,
        json_subscript report (py "overall_score") = Returns overall
        /\ formats_as_float overall = true
        /\ json_subscript report (py "recommendation") = Returns recommendation
        /\ closing = ClosingMsg overall recommendation)
  /\ is_end = true
  /\ session_state p' = session_state p.
Proof.
  intros H.
  destruct (generate_final_report_run w p)
    as [[E _]|(rep & overall & rec & Hrep & Hov & Hfmt & Hrec & E)];
    rewrite E in H; [discriminate|].
  cbv zeta in H. destruct (render _); [|discriminate H].
  injection H as <- <- <- <- <- <- <-.
  repeat split; [exact Hrep|]. now exists overall, rec.
Qed.

Lemma report_is_the_evaluators_witness :
  let w := world_at 301 [] [] report_consistent [] in
  let p := process_initial [] in
  report_completion w (report_prompt_of p) = Returns report_consistent
  /\ prompt_weights (report_prompt_of p) = HR_COMPETENCIES
  /\ (exists overall recommendation,
        json_subscript report_consistent (py "overall_score") = Returns overall
        /\ formats_as_float overall = true
        /\ json_subscript report_consistent (py "recommendation")
           = Returns recommendation
        /\ ClosingMsg (JNum 7.3) (JStr (py "Hire"))
           = ClosingMsg overall recommendation)
  /\ true = true
  /\ session_state
       (add_events p
          [EvReportLLM (report_prompt_of p);
           EvSynthesize (ClosingMsg (JNum 7.3) (JStr (py "Hire"))) HR_Manager])
     = session_state p.
Proof.
  apply (@report_is_the_evaluators
           (world_at 301 [] [] report_consistent [])
           (process_initial []) _ [] _ [] HR_Manager).
  reflexivity.
Defined.

(** C7 as stated fails: the evaluator may answer with an [overall_score]
    of 9.5 over four scores of 0, and the generator returns that report. *)
Lemma inconsistent_report_is_returned :
  ~ (forall (w : World) (p p' : process) (user_transcript : str)
       (closing : speech) (audio speaker : str) (is_end : bool)
       (report : json),
       generate_final_report w p
       = (Returns
            (ReportReply user_transcript closing audio speaker is_end report),
          p') ->
       overall_consistent report = true).
Proof.
  intros H.
  specialize (H (world_at 301 [] [] report_inconsistent [])
                (process_initial []) _ _ _ _ _ _ _ eq_refl).
  vm_compute in H. discriminate H.
Qed.

Example consistent_report_checks :
  overall_consistent report_consistent = true.
Proof. reflexivity. Qed.

(** *** Before the first [/start] *)





Example reply_to_chat_without_start :
  fst (chat (world_at 1762214400 (py "Hello?") (py "[HR_MANAGER] unused")
               report_consistent [])
         (process_initial []))
  = Returns
      (ReportReply [] (ClosingMsg (JNum 7.3) (JStr (py "Hire"))) []
         HR_Manager true report_consistent).
Proof. reflexivity. Qed.

(** The scenarios of the specification: a technical question, then the
    sign-off of the HR Manager. *)
Example scenario_tech_lead_question :
  fst (chat (world_at 42
               (py "I have five years of experience in backend systems")
               (py "[TECH_LEAD] Tell me about a scaling challenge you solved.")
               JNull [])
         (snd (start_interview_endpoint
                 (world_at 0 [] (py "[HR_MANAGER] Welcome.") JNull [])
                 (process_initial []))))
  = Returns
      (TurnReply (py "I have five years of experience in backend systems")
         (py "Tell me about a scaling challenge you solved.") []
         Tech_Lead false).
Proof. reflexivity. Qed.

Example scenario_sign_off :
  fst (chat (world_at 42 (py "Thank you.")
               (py "[HR_MANAGER] Thanks, we'll be in touch! <END_INTERVIEW>")
               report_consistent [])
         (snd (start_interview_endpoint
                 (world_at 0 [] (py "[HR_MANAGER] Welcome.") JNull [])
                 (process_initial []))))
  = Returns
      (ReportReply (py "Thank you.")
         (ClosingMsg (JNum 7.3) (JStr (py "Hire"))) [] HR_Manager true
         report_consistent).
Proof. reflexivity. Qed.

End Orchestrator.

(* ================================================================== *)
(** ** The turns of the history *)
(* ================================================================== *)

Section Invariant.

Lemma keeps_ret {A} (a : A) : keeps (ret a).
Proof. intros p H. exact H. Qed.

Lemma keeps_raise {A} (e : exn) : keeps (@raise A e).
Proof. intros p H. exact H. Qed.

Lemma keeps_lift {A} (o : outcome A) : keeps (lift o).
Proof. intros p H. exact H. Qed.

Lemma keeps_get_session : keeps get_session.
Proof. intros p H. exact H. Qed.

Lemma keeps_get_guide : keeps get_guide.
Proof. intros p H. exact H. Qed.

Lemma keeps_emit (e : event) : keeps (emit e).
Proof. intros p H. exact H. Qed.

Lemma keeps_put_guide (g : str) : keeps (put_guide g).
Proof. intros p H. exact H. Qed.

Lemma keeps_put_session (s : session) :
  Forall turn_ok (history s) -> keeps (put_session s).
Proof. intros Hs p _. exact Hs. Qed.

Lemma keeps_bind {A B} (m : M A) (k : A -> M B) :
  keeps m -> (forall a, keeps (k a)) -> keeps (bind m k).
Proof.
  intros Hm Hk p Hp. unfold bind.
  specialize (Hm p Hp). destruct (m p) as [[a|e] p']; cbn [snd] in *.
  - now apply Hk.
  - exact Hm.
Qed.

Lemma keeps_try_except {A} (m : M A) (h : exn -> M A) :
  keeps m -> (forall e, keeps (h e)) -> keeps (try_except m h).
Proof.
  intros Hm Hh p Hp. unfold try_except.
  specialize (Hm p Hp). destruct (m p) as [[a|e] p']; cbn [snd] in *.
  - exact Hm.
  - now apply Hh.
Qed.

Lemma keeps_history_append (entry : turn) :
  turn_ok entry -> keeps (history_append entry).
Proof.
  intros He p Hp. unfold history_append, history_ok. step_handler.
  apply Forall_app. split; [exact Hp | now constructor].
Qed.

Lemma keeps_set_last_question (q : str) : keeps (set_last_question q).
Proof. intros p Hp. exact Hp. Qed.

Lemma turn_ok_candidate (said : str) :
  turn_ok {| role := Candidate; panelist := []; text := said |}.
Proof. left. now split. Qed.

Lemma turn_ok_interviewer (raw said : str) :
  turn_ok {| role := Interviewer; panelist := parsed_speaker raw;
             text := said |}.
Proof. right. split; [reflexivity | apply parsed_speaker_cases]. Qed.

Lemma turn_ok_clarification :
  turn_ok {| role := Interviewer; panelist := HR_Manager;
             text := clarification |}.
Proof. right. split; [reflexivity | now left]. Qed.

Create HintDb keeps.

#[local] Hint Resolve keeps_ret keeps_raise keeps_lift keeps_get_session
  keeps_get_guide keeps_emit keeps_put_guide keeps_set_last_question
  turn_ok_candidate turn_ok_interviewer turn_ok_clarification : keeps.

(** Decompose a computation along its binds and branches. *)
Ltac keeps_steps :=
  repeat first
    [ progress cbv beta zeta
    | match goal with
      | |- keeps (try_except _ _) => apply keeps_try_except; [|intros ?]
      | |- keeps (bind _ _) => apply keeps_bind; [|intros ?]
      | |- keeps (history_append _) => apply keeps_history_append
      | |- keeps (if ?b then _ else _) => destruct b
      | |- keeps (match ?o with Returns _ => _ | Raises _ => _ end) =>
          destruct o
      end
    | solve [auto with keeps] ].

Lemma keeps_synthesize (w : World) (said : speech) (speaker_role : str) :
  keeps (synthesize w said speaker_role).
Proof. unfold synthesize. keeps_steps. Qed.

Lemma keeps_transcribe_file (w : World) : keeps (transcribe_file w).
Proof. unfold transcribe_file. keeps_steps. Qed.

Lemma keeps_generate_next_panel_turn (w : World) :
  keeps (generate_next_panel_turn w).
Proof.
  unfold generate_next_panel_turn, build_llm_messages_from_history,
    build_panel_system_prompt.
  keeps_steps.
Qed.

#[local] Hint Resolve keeps_synthesize keeps_transcribe_file
  keeps_generate_next_panel_turn : keeps.

Lemma keeps_generate_final_report (w : World) :
  keeps (generate_final_report w).
Proof. unfold generate_final_report. keeps_steps. Qed.

#[local] Hint Resolve keeps_generate_final_report : keeps.

Lemma keeps_chat (w : World) : keeps (chat w).
Proof.
  unfold chat. keeps_steps.
  rewrite parse_components. keeps_steps.
Qed.

Lemma keeps_start_interview_endpoint (w : World) :
  keeps (start_interview_endpoint w).
Proof.
  unfold start_interview_endpoint. keeps_steps.
  - apply keeps_put_session. constructor.
  - rewrite parse_components. keeps_steps.
Qed.

Lemma keeps_upload_hr_pdf (w : World) : keeps (upload_hr_pdf w).
Proof. unfold upload_hr_pdf. keeps_steps. Qed.

Lemma keeps_handle (r : request) (w : World) : keeps (handle r w).
Proof.
  destruct r; cbn [handle].
  - apply keeps_start_interview_endpoint.
  - apply keeps_chat.
  - apply keeps_upload_hr_pdf.
Qed.

(** C8. In every state the process can reach by [/start], [/chat] and
    [/upload_hr_pdf] requests, whatever the world answers and whether a
    handler returns or raises, each turn of the history has role
    ["Candidate"] with an empty panelist or role ["Interviewer"] with
    panelist ["HR Manager"] or ["Tech Lead"]. *)
Theorem history_turns_well_formed (p : process) :
  reachable p -> Forall turn_ok (history (session_state p)).
Proof.
  induction 1 as [guide | p r w Hp IH].
  - constructor.
  - now apply keeps_handle.
Qed.

Lemma history_turns_well_formed_witness :
  Forall turn_ok
    (history
       (session_state
          (snd (handle PostChat
                  (world_at 42 (py "I have five years of experience in backend systems")
                     (py "[TECH_LEAD] Tell me about a scaling challenge you solved.")
                     JNull [])
                  (snd (handle GetStart
                          (world_at 0 [] (py "[HR_MANAGER] Welcome.") JNull [])
                          (process_initial []))))))).
Proof.
  apply history_turns_well_formed.
  apply reachable_handle, reachable_handle, reachable_initial.
Defined.

Example history_after_two_requests :
  history
    (session_state
       (snd (handle PostChat
               (world_at 42 (py "I have five years of experience in backend systems")
                  (py "[TECH_LEAD] Tell me about a scaling challenge you solved.")
                  JNull [])
               (snd (handle GetStart
                       (world_at 0 [] (py "[HR_MANAGER] Welcome.") JNull [])
                       (process_initial []))))))
  = [ {| role := Interviewer; panelist := HR_Manager; text := py "Welcome." |};
      {| role := Candidate; panelist := [];
         text := py "I have five years of experience in backend systems" |};
      {| role := Interviewer; panelist := Tech_Lead;
         text := py "Tell me about a scaling challenge you solved." |} ].
Proof. reflexivity. Qed.

End Invariant.

(* ================================================================== *)
(** ** Speech synthesis degrades to silence *)
(* ================================================================== *)

(** Unfold a handler down to the answers of the world. *)
Ltac unfold_handlers :=
  unfold handle, chat, start_interview_endpoint, upload_hr_pdf,
    generate_final_report, generate_next_panel_turn,
    build_llm_messages_from_history, build_panel_system_prompt,
    transcribe_file, JSONResponse;
  step_handler.

(** The strings that always encode: base64 text and the two speakers. *)
Ltac solve_encodable :=
  first [ apply encodable_b64encode
        | reflexivity
        | apply encodable_speaker
        | eapply encodable_speaker_of; eassumption ].

(** Bring the rendering of a body to what decides it: nothing for the
    fixed bodies, the text before the audio for a turn or an opening, the
    report without its audio. *)
Ltac render_known :=
  match goal with
  | |- context [render (ErrorReply (py ?m) ?c)] =>
      change (render (ErrorReply (py m) c)) with (@Returns unit tt)
  | |- context [render (UploadReply ?a ?b ?c)] =>
      change (render (UploadReply a b c)) with (@Returns unit tt)
  | |- context [render (TurnReply ?u ?t ?a ?sp ?e)] =>
      rewrite (@render_turn u t a sp e) by solve_encodable
  | |- context [encode_utf8 (turn_head [] clarification)] =>
      change (encode_utf8 (turn_head [] clarification)) with (@Returns unit tt)
  | |- context [render (StartReply ?t ?a ?sp)] =>
      rewrite (@render_start t a sp) by solve_encodable
  | |- context [render (ReportReply ?u ?c (b64encode ?a) ?sp ?e ?rep)] =>
      rewrite (@render_report u c (b64encode a) sp e rep) by solve_encodable
  end.

(** Split on the innermost scrutinee of the goal, one at a time. *)
Ltac split_innermost :=
  match goal with
  | |- context [match ?x with _ => _ end] =>
      lazymatch x with
      | context [match _ with _ => _ end] => fail
      | _ => destruct x eqn:?
      end
  end.

(** Case analysis of a handler along the answers of the world. *)
Ltac split_handler := repeat first [render_known | split_innermost].

Section Synthesis.






(** Without a Murf key the silence branch still answers, with no audio. *)
Example silent_turn_without_murf :
  fst (chat (world_no_murf_key 42 (py "   ") (py "[HR_MANAGER] Welcome.") JNull)
         (snd (start_interview_endpoint
                 (world_no_murf_key 0 [] (py "[HR_MANAGER] Welcome.") JNull)
                 (process_initial []))))
  = Returns (TurnReply [] clarification [] HR_Manager false).
Proof. reflexivity. Qed.

(** A refused request, a reply without [audioFile] and a refused download
    are failures of the exchange. *)
Example murf_refusal_is_failure :
  let w := {| time_time := 0; copyfileobj := Returns tt;
              OPENAI_API_KEY := None; whisper_text := Returns [];
              panel_completion := fun _ => Returns [];
              report_completion := fun _ => Returns JNull;
              MURF_API_KEY := Some (py "murf-test");
              requests_post := fun _ _ =>
                Returns {| status_code := 401; body_json := Returns JNull;
                           content := [] |};
              requests_get := fun _ => Returns (http_ok JNull []);
              write_hr_pdf := Returns tt; pdf_text := Returns [] |} in
  murf_failure w (Lit (py "Welcome.")) (voice_of Tech_Lead)
  /\ synthesize_bytes w (Lit (py "Welcome.")) Tech_Lead = [].
Proof.
  split; [|reflexivity].
  eapply post_refused; [reflexivity | discriminate].
Qed.

Example b64encode_examples :
  b64encode [] = []
  /\ b64encode ["M"%byte] = py "TQ=="
  /\ b64encode ["M"%byte; "a"%byte] = py "TWE="
  /\ b64encode ["M"%byte; "a"%byte; "n"%byte] = py "TWFu".
Proof. repeat split. Qed.

Example voice_of_examples :
  voice_of HR_Manager = py "en-US-natalie"
  /\ voice_of Tech_Lead = py "en-US-cooper"
  /\ voice_of (py "Default") = py "en-US-natalie"
  /\ voice_of (py "Someone") = py "en-US-natalie".
Proof. repeat split. Qed.

End Synthesis.

(* ================================================================== *)
(** ** More on the turn parser *)
(* ================================================================== *)

Section ParserMore.

Lemma lstrip_spaces (ws s : str) :
  forallb isspace ws = true -> lstrip (ws ++ s) = lstrip s.
Proof.
  induction ws as [|c ws IH]; intros H; [reflexivity|].
  simpl in H. apply andb_true_iff in H as [Hc Hws].
  simpl. rewrite Hc. now apply IH.
Qed.

Lemma rstrip_spaces (ws : str) : forallb isspace ws = true -> rstrip ws = [].
Proof.
  induction ws as [|c ws IH]; intros H; [reflexivity|].
  simpl in H. apply andb_true_iff in H as [Hc Hws].
  simpl. now rewrite IH, Hc.
Qed.

Lemma lstrip_all_or_app (s ws : str) :
  forallb isspace ws = true ->
  (lstrip s = [] /\ lstrip (s ++ ws) = [])
  \/ lstrip (s ++ ws) = lstrip s ++ ws.
Proof.
  intros Hws. induction s as [|c s IH].
  - left. split; [reflexivity|]. simpl.
    rewrite <- (app_nil_r ws). rewrite lstrip_spaces by exact Hws. reflexivity.
  - simpl. destruct (isspace c); [exact IH | now right].
Qed.

Lemma strip_spaces_around (ws1 s ws2 : str) :
  forallb isspace ws1 = true -> forallb isspace ws2 = true ->
  strip (ws1 ++ s ++ ws2) = strip s.
Proof.
  intros H1 H2. unfold strip. rewrite lstrip_spaces by exact H1.
  destruct (@lstrip_all_or_app s ws2 H2) as [[E1 E2]|E].
  - now rewrite E1, E2.
  - rewrite E. apply rstrip_app_drop. now apply rstrip_spaces.
Qed.

Lemma parse_only_reads_strip (a b : str) :
  strip a = strip b ->
  parse_panel_speaker_and_text a = parse_panel_speaker_and_text b.
Proof.
  intros H. rewrite !parse_components.
  now rewrite !parsed_speaker_eq, !parsed_text_eq, !parsed_done_eq, H.
Qed.

(** X1. The completion flag is true exactly when the raw output contains
    the end token: a token is never missed and never invented. *)
Theorem done_iff_token_present (raw : str) :
  parsed_done raw = contains end_token raw.
Proof.
  destruct end_token_shape as (tok & Etok & Hsp & Hlast).
  destruct (contains end_token raw) eqn:C.
  - rewrite parsed_done_eq. apply split_speaker_contains.
    rewrite Etok in *. now apply contains_strip.
  - apply not_true_is_false. intros H. rewrite parsed_done_eq in H.
    assert (Hs : contains end_token (strip raw) = true).
    { revert H. unfold split_speaker, slice_from.
      destruct (startswith (strip raw) HR_MANAGER_TAG);
        [|destruct (startswith (strip raw) TECH_LEAD_TAG)]; cbn [snd];
        intros H; try exact H;
        now apply contains_lstrip_inv, contains_skipn in H. }
    apply contains_strip_inv in Hs. congruence.
Qed.

(** X2. A trimmed output [HR_MANAGER_TAG ++ X] is attributed to the HR
    Manager; its cleaned text is [X] without its leading white space, with
    the end token deleted and trimmed again, hence [X] without its leading
    white space when [X] contains no end token. *)
Theorem hr_manager_turn (raw X : str) :
  strip raw = HR_MANAGER_TAG ++ X ->
  parsed_speaker raw = HR_Manager
  /\ parsed_text raw = strip (replace end_token [] (lstrip X))
  /\ (contains end_token X = false -> parsed_text raw = lstrip X).
Proof.
  intros HX.
  assert (E : split_speaker (strip raw) = (HR_Manager, lstrip X)).
  { rewrite HX. unfold split_speaker, slice_from.
    rewrite startswith_app. now rewrite skipn_app, skipn_all, Nat.sub_diag. }
  rewrite parsed_speaker_eq, parsed_text_eq, E. cbn [fst snd].
  repeat split.
  intros Hno. rewrite replace_absent.
  - apply strip_fixed; [apply lstrip_no_leading|].
    destruct (lstrip_suffix X) as [n Hn].
    apply (no_trailing_space_app (HR_MANAGER_TAG ++ firstn n X)).
    rewrite Hn, <- app_assoc, firstn_skipn, <- HX.
    apply strip_no_trailing.
  - destruct (contains end_token (lstrip X)) eqn:C; [|reflexivity].
    apply contains_lstrip_inv in C. congruence.
Qed.

Lemma hr_manager_turn_witness :
  let raw := py "  [HR_MANAGER]  Good afternoon, thanks for joining us.  " in
  let X := py "  Good afternoon, thanks for joining us." in
  parsed_speaker raw = HR_Manager
  /\ parsed_text raw = strip (replace end_token [] (lstrip X))
  /\ (contains end_token X = false -> parsed_text raw = lstrip X).
Proof.
  exact (@hr_manager_turn
           (py "  [HR_MANAGER]  Good afternoon, thanks for joining us.  ")
           (py "  Good afternoon, thanks for joining us.")
           eq_refl).
Defined.

(** X3. Whatever the raw output, the cleaned text has no leading and no
    trailing white space, and the speaker is the Tech Lead exactly when the
    trimmed output starts with the Tech Lead's tag, the HR Manager
    otherwise. *)
Theorem parse_result_shape (raw : str) :
  no_leading_space (parsed_text raw) = true
  /\ no_trailing_space (parsed_text raw) = true
  /\ parsed_speaker raw
     = (if startswith (strip raw) TECH_LEAD_TAG then Tech_Lead else HR_Manager).
Proof.
  rewrite parsed_text_eq, parsed_speaker_eq.
  split; [apply strip_no_leading|]. split; [apply strip_no_trailing|].
  unfold split_speaker.
  destruct (startswith (strip raw) HR_MANAGER_TAG) eqn:E1;
    destruct (startswith (strip raw) TECH_LEAD_TAG) eqn:E2; try reflexivity.
  exfalso. apply startswith_split in E1. rewrite E1 in E2.
  vm_compute in E2. discriminate E2.
Qed.

(** X4. White space around the raw output is immaterial: surrounding it
    with any characters that [str.isspace] accepts gives the same
    speaker, text and flag. *)
Theorem parse_ignores_outer_space (ws1 raw ws2 : str) :
  forallb isspace ws1 = true -> forallb isspace ws2 = true ->
  parse_panel_speaker_and_text (ws1 ++ raw ++ ws2)
  = parse_panel_speaker_and_text raw.
Proof.
  intros H1 H2. apply parse_only_reads_strip.
  now apply strip_spaces_around.
Qed.

Lemma parse_ignores_outer_space_witness :
  parse_panel_speaker_and_text
    ([10%N; 32%N; 160%N]
     ++ py "[TECH_LEAD] Walk me through the cache design. <END_INTERVIEW>"
     ++ [32%N; 8232%N; 9%N])
  = parse_panel_speaker_and_text
      (py "[TECH_LEAD] Walk me through the cache design. <END_INTERVIEW>").
Proof.
  exact (@parse_ignores_outer_space [10%N; 32%N; 160%N]
           (py "[TECH_LEAD] Walk me through the cache design. <END_INTERVIEW>")
           [32%N; 8232%N; 9%N] eq_refl eq_refl).
Defined.

End ParserMore.

(* ================================================================== *)
(** ** More on the handlers *)
(* ================================================================== *)

Section HandlersMore.

Lemma eqb_eq (a b : str) : PyStr.eqb a b = true <-> a = b.
Proof.
  revert b; induction a as [|c a IH]; intros [|d b]; simpl;
    try (split; [discriminate | congruence]); [tauto|].
  rewrite andb_true_iff, N.eqb_eq, IH. split.
  - intros [-> ->]. reflexivity.
  - intros H. injection H as -> ->. now split.
Qed.


(** An opening with a lone surrogate: [/start] raises, after the panel and
    the synthesizer were called and the opening was recorded. *)
Example start_with_surrogate :
  let w := world_at 7 [] (py "[HR_MANAGER] Welcome" ++ [57343%N]) JNull [] in
  fst (start_interview_endpoint w (process_initial []))
  = Raises
      (Exception
         (py "'utf-8' codec can't encode character '\udfff' in position 16: surrogates not allowed"))
  /\ history (session_state (snd (start_interview_endpoint w (process_initial []))))
     = [ {| role := Interviewer; panelist := HR_Manager;
            text := py "Welcome" ++ [57343%N] |} ].
Proof. split; reflexivity. Qed.




(** A panel text with a lone surrogate: the turns are recorded, the text
    is spoken, and the reply is the failure that quotes the encoding
    error. *)
Example ordinary_turn_with_surrogate :
  let w := world_at 42 (py "Hello") (py "[TECH_LEAD] Go on" ++ [55296%N; 46%N])
             JNull [] in
  let p := process_initial [] in
  chat w (with_session p (reset_session (world_at 0 [] [] JNull [])))
  = (Returns
       (ErrorReply
          (py "'utf-8' codec can't encode character '\ud800' in position 52: surrogates not allowed")
          500),
     {| session_state :=
          {| start_time := 0; current_q_index := 0; follow_up_count := 0;
             last_question := py "Go on" ++ [55296%N; 46%N];
             history :=
               [ {| role := Candidate; panelist := []; text := py "Hello" |};
                 {| role := Interviewer; panelist := Tech_Lead;
                    text := py "Go on" ++ [55296%N; 46%N] |} ] |};
        HR_GUIDE := [];
        trace :=
          [EvSaveUpload; EvTranscribe;
           EvPanelLLM [SystemMsg [] HR_COMPETENCIES; UserMsg (py "Hello")];
           EvSynthesize (Lit (py "Go on" ++ [55296%N; 46%N])) Tech_Lead] |}).
Proof. reflexivity. Qed.

Example ordinary_turn_reply :
  fst (chat (world_at 42
               (py " I have five years of experience in backend systems ")
               (py "[TECH_LEAD] Tell me about a scaling challenge you solved.")
               JNull ["I"%byte; "D"%byte; "3"%byte])
         (snd (start_interview_endpoint
                 (world_at 0 [] (py "[HR_MANAGER] Welcome.") JNull [])
                 (process_initial []))))
  = Returns
      (TurnReply (py "I have five years of experience in backend systems")
         (py "Tell me about a scaling challenge you solved.") (py "SUQz")
         Tech_Lead false).
Proof. reflexivity. Qed.





(** X8. When the upload cannot be saved or transcribed, nothing is
    appended to the history and the panel is not called; [/chat] answers
    with status 500 and the text of the exception (Whisper's being
    prefixed by [transcribe_file]), provided that text can be encoded.
    Without an OpenAI key the reply is the fixed missing-key text and does
    not depend on what Whisper would answer. *)
Theorem transcription_failure (w : World) (p : process) :
  timed_out w p = false ->
  (forall e,
     copyfileobj w = Raises e ->
     snd (chat w p) = add_events p [EvSaveUpload]
     /\ (encodable (exn_str e) = true ->
         fst (chat w p) = Returns (ErrorReply (exn_str e) 500)))
  /\ (copyfileobj w = Returns tt ->
      key_missing (OPENAI_API_KEY w) = true ->
      chat w p
      = (Returns
           (ErrorReply (py "OPENAI_API_KEY is not set in .env file") 500),
         add_events p [EvSaveUpload; EvTranscribe]))
  /\ (forall e,
        copyfileobj w = Returns tt ->
        key_missing (OPENAI_API_KEY w) = false ->
        whisper_text w = Raises e ->
        snd (chat w p) = add_events p [EvSaveUpload; EvTranscribe]
        /\ (encodable (exn_str e) = true ->
            fst (chat w p)
            = Returns
                (ErrorReply (py "OpenAI Transcription failed: " ++ exn_str e)
                   500))).
Proof.
  intros Htime.
  repeat split; intros;
    unfold chat, try_except, bind at 1, get_session;
    fold (timed_out w p); rewrite Htime;
    unfold transcribe_file; step_handler;
    repeat match goal with
           | H : _ = Returns _ |- _ => rewrite H; clear H
           | H : _ = Raises _ |- _ => rewrite H; clear H
           | H : key_missing _ = _ |- _ => rewrite H; clear H
           end;
    cbn [exn_str]; unfold add_events; cbn [fst snd trace];
    rewrite <- ?app_assoc; try reflexivity.
  - rewrite JSONResponse_error by assumption. reflexivity.
  - rewrite JSONResponse_error; [reflexivity|].
    now rewrite encodable_app, encodable_py.
Qed.

Lemma transcription_failure_witness :
  let w := world_whisper_fails 60 (Exception (py "Connection error.")) in
  let p := process_initial [] in
  (forall e,
     copyfileobj w = Raises e ->
     snd (chat w p) = add_events p [EvSaveUpload]
     /\ (encodable (exn_str e) = true ->
         fst (chat w p) = Returns (ErrorReply (exn_str e) 500)))
  /\ (copyfileobj w = Returns tt ->
      key_missing (OPENAI_API_KEY w) = true ->
      chat w p
      = (Returns
           (ErrorReply (py "OPENAI_API_KEY is not set in .env file") 500),
         add_events p [EvSaveUpload; EvTranscribe]))
  /\ (forall e,
        copyfileobj w = Returns tt ->
        key_missing (OPENAI_API_KEY w) = false ->
        whisper_text w = Raises e ->
        snd (chat w p) = add_events p [EvSaveUpload; EvTranscribe]
        /\ (encodable (exn_str e) = true ->
            fst (chat w p)
            = Returns
                (ErrorReply (py "OpenAI Transcription failed: " ++ exn_str e)
                   500))).
Proof.
  apply (@transcription_failure
           (world_whisper_fails 60 (Exception (py "Connection error.")))
           (process_initial [])).
  reflexivity.
Defined.

(** The three failures, each in a world where it happens. *)
Example whisper_failure_reply :
  chat (world_whisper_fails 60 (Exception (py "Connection error.")))
    (process_initial [])
  = (Returns
       (ErrorReply (py "OpenAI Transcription failed: Connection error.") 500),
     add_events (process_initial []) [EvSaveUpload; EvTranscribe]).
Proof. reflexivity. Qed.

Example save_failure_reply :
  chat {| time_time := 60;
          copyfileobj := Raises (Exception (py "No space left on device"));
          OPENAI_API_KEY := Some (py "sk-test");
          whisper_text := Returns (py "Hello");
          panel_completion := fun _ => Returns [];
          report_completion := fun _ => Returns JNull;
          MURF_API_KEY := None;
          requests_post := fun _ _ => Raises (Exception []);
          requests_get := fun _ => Raises (Exception []);
          write_hr_pdf := Returns tt; pdf_text := Returns [] |}
    (process_initial [])
  = (Returns (ErrorReply (py "No space left on device") 500),
     add_events (process_initial []) [EvSaveUpload]).
Proof. reflexivity. Qed.

Example missing_key_reply :
  chat {| time_time := 60; copyfileobj := Returns tt;
          OPENAI_API_KEY := None;
          whisper_text := Returns (py "Hello");
          panel_completion := fun _ => Returns [];
          report_completion := fun _ => Returns JNull;
          MURF_API_KEY := None;
          requests_post := fun _ _ => Raises (Exception []);
          requests_get := fun _ => Raises (Exception []);
          write_hr_pdf := Returns tt; pdf_text := Returns [] |}
    (process_initial [])
  = (Returns (ErrorReply (py "OPENAI_API_KEY is not set in .env file") 500),
     add_events (process_initial []) [EvSaveUpload; EvTranscribe]).
Proof. reflexivity. Qed.

(** X9. Whatever the world does, [/chat] only appends to the history, at
    most two turns, and changes neither the start time, nor the counters,
    nor the guide: turns once recorded are never edited or dropped by a
    chat request, and the clock of the session is never restarted by
    one. *)
Theorem chat_only_appends (w : World) (p : process) :
  let s := session_state p in
  let s' := session_state (snd (chat w p)) in
  (exists new,
     history s' = history s ++ new /\ (length new <= 2)%nat)
  /\ start_time s' = start_time s
  /\ current_q_index s' = current_q_index s
  /\ follow_up_count s' = follow_up_count s
  /\ HR_GUIDE (snd (chat w p)) = HR_GUIDE p.
Proof.
  cbv zeta. unfold_handlers. split_handler;
    cbn [snd session_state HR_GUIDE history start_time current_q_index
         follow_up_count];
    (split; [|repeat split]);
    rewrite <- ?app_assoc;
    first [ exists []; rewrite app_nil_r; split; [reflexivity | simpl; lia]
          | eexists; split; [reflexivity | simpl; lia] ].
Qed.



Example start_reply :
  fst (start_interview_endpoint
         (world_at 1000 [] (py "[HR_MANAGER] Welcome back. <END_INTERVIEW>")
            JNull ["I"%byte; "D"%byte; "3"%byte])
         (process_initial []))
  = Returns (StartReply (py "Welcome back.") (py "SUQz") HR_Manager).
Proof. reflexivity. Qed.

(** X11. A [/start] whose panel call raises lets the exception through
    (it has no handler of its own) after the session was already reset:
    the previous history is gone, the start time is the time of the failed
    request, and no opening turn was recorded. *)
Theorem failed_start_leaves_reset_session (w : World) (p : process) (e : exn) :
  panel_completion w [SystemMsg (HR_GUIDE p) HR_COMPETENCIES] = Raises e ->
  let p' := snd (start_interview_endpoint w p) in
  fst (start_interview_endpoint w p) = Raises e
  /\ history (session_state p') = []
  /\ last_question (session_state p') = []
  /\ start_time (session_state p') = time_time w
  /\ calls_of (start_interview_endpoint w) p
     = [EvPanelLLM [SystemMsg (HR_GUIDE p) HR_COMPETENCIES]].
Proof.
  intros Hpanel p'. subst p'.
  pose proof (start_run w p) as E. cbv zeta in E.
  change (panel_messages (with_session p (reset_session w)))
    with [SystemMsg (HR_GUIDE p) HR_COMPETENCIES] in E.
  rewrite Hpanel in E.
  rewrite (@calls_of_run _ (start_interview_endpoint w) p _ _ _ E eq_refl).
  rewrite E. repeat split.
Qed.

Lemma failed_start_leaves_reset_session_witness :
  let e := Exception (py "Connection error.") in
  let w := world_panel_fails 1000 [] e in
  let p := snd (start_interview_endpoint
                  (world_at 0 [] (py "[HR_MANAGER] Welcome.") JNull [])
                  (process_initial [])) in
  let p' := snd (start_interview_endpoint w p) in
  fst (start_interview_endpoint w p) = Raises e
  /\ history (session_state p') = []
  /\ last_question (session_state p') = []
  /\ start_time (session_state p') = time_time w
  /\ calls_of (start_interview_endpoint w) p
     = [EvPanelLLM [SystemMsg (HR_GUIDE p) HR_COMPETENCIES]].
Proof.
  apply (@failed_start_leaves_reset_session
           (world_panel_fails 1000 [] (Exception (py "Connection error.")))
           (snd (start_interview_endpoint
                   (world_at 0 [] (py "[HR_MANAGER] Welcome.") JNull [])
                   (process_initial [])))
           (Exception (py "Connection error."))).
  reflexivity.
Defined.

Lemma history_messages_app (h1 h2 : list turn) :
  history_messages (h1 ++ h2) = history_messages h1 ++ history_messages h2.
Proof.
  induction h1 as [|t h1 IH]; [reflexivity|]. simpl.
  destruct (PyStr.eqb (role t) Interviewer); [simpl; now rewrite IH|].
  destruct (PyStr.eqb (role t) Candidate); [simpl; now rewrite IH | exact IH].
Qed.

(** X12. When something was heard, the panel is asked exactly once, after
    the upload was saved and transcribed, with the system message, then
    the messages of the whole history so far in order, then the trimmed
    transcript as the user's message. *)
Theorem panel_sees_whole_history (w : World) (p : process) (heard : str) :
  timed_out w p = false -> transcribed w heard -> strip heard <> [] ->
  let messages :=
    SystemMsg (HR_GUIDE p) HR_COMPETENCIES
    :: history_messages (history (session_state p))
       ++ [UserMsg (strip heard)] in
  exists evs,
    calls_of (chat w) p
    = [EvSaveUpload; EvTranscribe; EvPanelLLM messages] ++ evs
    /\ existsb is_panel_call evs = false.
Proof.
  intros Htime Hheard Hsome messages.
  pose proof (chat_heard_run p Htime Hheard Hsome) as E. cbv zeta in E.
  assert (Em : panel_messages (heard_state p heard) = messages).
  { unfold panel_messages, heard_state, add_events, with_session, with_turns.
    cbn [session_state HR_GUIDE history].
    now rewrite history_messages_app. }
  rewrite Em in E. unfold calls_of.
  destruct (panel_completion w messages) as [raw|e].
  - destruct (parsed_done raw).
    + destruct (generate_final_report_returns w
                  (answered_state (heard_state p heard) raw))
        as (r & evs & R & _ & Hp).
      rewrite E, R. exists evs. split; [|exact Hp].
      unfold answered_state. rewrite Em.
      unfold heard_state, add_events, with_session.
      destruct (truthy (parsed_text raw)); cbn [snd trace];
        rewrite <- !app_assoc;
        now rewrite skipn_app, skipn_all, Nat.sub_diag.
    + rewrite E. eexists. split.
      * unfold answered_state. rewrite Em.
        unfold heard_state, add_events, with_session.
        destruct (truthy (parsed_text raw)); cbn [snd trace];
          rewrite <- !app_assoc;
          rewrite skipn_app, skipn_all, Nat.sub_diag; reflexivity.
      * reflexivity.
  - rewrite E. exists []. split; [|reflexivity].
    unfold heard_state, add_events, with_session.
    cbn [snd trace]. rewrite <- !app_assoc.
    now rewrite skipn_app, skipn_all, Nat.sub_diag.
Qed.

Lemma panel_sees_whole_history_witness :
  let heard := py "I have five years of experience in backend systems" in
  let w := world_at 42 heard (py "[TECH_LEAD] Go on.") JNull [] in
  let p := snd (start_interview_endpoint
                  (world_at 0 [] (py "[HR_MANAGER] Welcome.") JNull [])
                  (process_initial (py "Role: backend engineer"))) in
  let messages :=
    SystemMsg (HR_GUIDE p) HR_COMPETENCIES
    :: history_messages (history (session_state p))
       ++ [UserMsg (strip heard)] in
  exists evs,
    calls_of (chat w) p
    = [EvSaveUpload; EvTranscribe; EvPanelLLM messages] ++ evs
    /\ existsb is_panel_call evs = false.
Proof.
  apply (@panel_sees_whole_history
           (world_at 42
              (py "I have five years of experience in backend systems")
              (py "[TECH_LEAD] Go on.") JNull [])
           (snd (start_interview_endpoint
                   (world_at 0 [] (py "[HR_MANAGER] Welcome.") JNull [])
                   (process_initial (py "Role: backend engineer"))))
           (py "I have five years of experience in backend systems")).
  - reflexivity.
  - repeat split.
  - vm_compute. discriminate.
Defined.

Example first_answer_messages :
  calls_of
    (chat (world_at 42
             (py "I have five years of experience in backend systems")
             (py "[TECH_LEAD] Go on.") JNull []))
    (snd (start_interview_endpoint
            (world_at 0 [] (py "[HR_MANAGER] Welcome.") JNull [])
            (process_initial (py "Role: backend engineer"))))
  = [EvSaveUpload; EvTranscribe;
     EvPanelLLM
       [SystemMsg (py "Role: backend engineer") HR_COMPETENCIES;
        AssistantMsg (py "Welcome.");
        UserMsg (py "I have five years of experience in backend systems")];
     EvSynthesize (Lit (py "Go on.")) Tech_Lead].
Proof. reflexivity. Qed.


Example upload_with_unreadable_pdf :
  let w := {| time_time := 0; copyfileobj := Returns tt;
              OPENAI_API_KEY := None; whisper_text := Returns [];
              panel_completion := fun _ => Returns [];
              report_completion := fun _ => Returns JNull;
              MURF_API_KEY := None;
              requests_post := fun _ _ => Raises (Exception []);
              requests_get := fun _ => Raises (Exception []);
              write_hr_pdf := Returns tt;
              pdf_text := Raises (Exception (py "EOF marker not found")) |} in
  upload_hr_pdf w (process_initial (py "old guide"))
  = (Returns (UploadReply (py "ok")
                (py "HR guide uploaded and loaded successfully.") 200),
     process_initial []).
Proof. reflexivity. Qed.

End HandlersMore.

(* ================================================================== *)
(** ** More invariants of the process *)
(* ================================================================== *)

Section SessionInvariants.

Lemma reachable_history_ok (p : process) : reachable p -> history_ok p.
Proof.
  induction 1 as [guide | p r w Hp IH]; [constructor|].
  now apply keeps_handle.
Qed.

Lemma history_messages_map (h : list turn) :
  Forall turn_ok h -> history_messages h = map turn_message h.
Proof.
  induction 1 as [|t h Ht Hh IH]; [reflexivity|].
  simpl. unfold turn_message at 1. rewrite IH.
  destruct (PyStr.eqb (role t) Interviewer) eqn:E1; [reflexivity|].
  destruct Ht as [[Hr _]|[Hr _]]; rewrite Hr in *.
  - reflexivity.
  - discriminate E1.
Qed.

(** X14. In every reachable state the request to the panel has one
    message per turn of the history, in order, after the system message:
    an interviewer turn as the assistant's, a candidate turn as the
    user's; no turn is skipped. *)
Theorem one_message_per_turn (p : process) :
  reachable p ->
  panel_messages p
  = SystemMsg (HR_GUIDE p) HR_COMPETENCIES
    :: map turn_message (history (session_state p))
  /\ length (panel_messages p) = S (length (history (session_state p))).
Proof.
  intros H. apply reachable_history_ok in H. unfold panel_messages.
  rewrite (history_messages_map H). split; [reflexivity|].
  simpl. now rewrite length_map.
Qed.

Lemma one_message_per_turn_witness :
  let p := snd (handle PostChat
                  (world_at 42 (py "Hello there") (py "[TECH_LEAD] Go on.")
                     JNull [])
                  (snd (handle GetStart
                          (world_at 0 [] (py "[HR_MANAGER] Welcome.") JNull [])
                          (process_initial [])))) in
  panel_messages p
  = SystemMsg (HR_GUIDE p) HR_COMPETENCIES
    :: map turn_message (history (session_state p))
  /\ length (panel_messages p) = S (length (history (session_state p))).
Proof.
  apply one_message_per_turn.
  apply reachable_handle, reachable_handle, reachable_initial.
Defined.

(** X15. The two counters of the session are never advanced: in every
    reachable state the question index and the follow-up count are 0. *)
Theorem counters_stay_zero (p : process) :
  reachable p ->
  current_q_index (session_state p) = 0%Z
  /\ follow_up_count (session_state p) = 0%Z.
Proof.
  induction 1 as [guide | p r w Hp [IH1 IH2]]; [now split|].
  destruct r; unfold_handlers; split_handler;
    cbn [snd session_state current_q_index follow_up_count]; now split.
Qed.

Lemma counters_stay_zero_witness :
  let p := snd (handle PostChat
                  (world_at 42 (py "Hello there") (py "[TECH_LEAD] Go on.")
                     JNull [])
                  (snd (handle GetStart
                          (world_at 0 [] (py "[HR_MANAGER] Welcome.") JNull [])
                          (process_initial [])))) in
  current_q_index (session_state p) = 0%Z
  /\ follow_up_count (session_state p) = 0%Z.
Proof.
  apply counters_stay_zero.
  apply reachable_handle, reachable_handle, reachable_initial.
Defined.

(** X16. In every reachable state the recorded last question is empty
    or is the text of an interviewer turn that is in the history. *)
Theorem last_question_was_asked (p : process) :
  reachable p ->
  last_question (session_state p) = []
  \/ exists t,
       In t (history (session_state p))
       /\ role t = Interviewer
       /\ text t = last_question (session_state p).
Proof.
  induction 1 as [guide | p r w Hp IH]; [now left|].
  assert (Hgrow : forall new,
            last_question (session_state p) = []
            \/ exists t,
                 In t (history (session_state p) ++ new)
                 /\ role t = Interviewer
                 /\ text t = last_question (session_state p)).
  { intros new. destruct IH as [IH|(t & Hin & Hr & Ht)]; [now left|].
    right. exists t. repeat split; auto. apply in_or_app. now left. }
  destruct r; unfold_handlers; split_handler;
    cbn [snd session_state last_question history];
    rewrite <- ?app_assoc;
    first [ exact IH
          | apply Hgrow
          | now left
          | right; eexists; split;
            [ first [ now left
                    | apply in_or_app; right; simpl; now eauto ]
            | split; reflexivity ] ].
Qed.

Lemma last_question_was_asked_witness :
  let p := snd (handle PostChat
                  (world_at 42 (py "   ") (py "[TECH_LEAD] unused") JNull [])
                  (snd (handle PostChat
                          (world_at 30 (py "Hello there")
                             (py "[TECH_LEAD] Go on.") JNull [])
                          (snd (handle GetStart
                                  (world_at 0 [] (py "[HR_MANAGER] Welcome.")
                                     JNull [])
                                  (process_initial [])))))) in
  last_question (session_state p) = []
  \/ exists t,
       In t (history (session_state p))
       /\ role t = Interviewer
       /\ text t = last_question (session_state p).
Proof.
  apply last_question_was_asked.
  apply reachable_handle, reachable_handle, reachable_handle,
    reachable_initial.
Defined.

Lemma text_ok_parsed (raw speaker said : str) (done : bool) :
  parse_panel_speaker_and_text raw = (speaker, said, done) ->
  text_ok {| role := Interviewer; panelist := speaker; text := said |}.
Proof.
  intros E.
  assert (Hs : said = parsed_text raw) by (unfold parsed_text; now rewrite E).
  subst said. rewrite parsed_text_eq. repeat split; cbn [text role].
  - apply strip_no_leading.
  - apply strip_no_trailing.
  - intros H. vm_compute in H. discriminate H.
Qed.

Lemma text_ok_heard (heard : str) :
  negb (truthy (strip heard)) = false ->
  text_ok {| role := Candidate; panelist := []; text := strip heard |}.
Proof.
  intros H. repeat split; cbn [text].
  - apply strip_no_leading.
  - apply strip_no_trailing.
  - intros _ E. rewrite E in H. discriminate H.
Qed.

Lemma text_ok_clarification :
  text_ok {| role := Interviewer; panelist := HR_Manager;
             text := clarification |}.
Proof.
  repeat split. intros H. vm_compute in H. discriminate H.
Qed.

(** X17. In every reachable state the text of each turn has no leading
    and no trailing white space, and each candidate turn has a non-empty
    text: silence is never recorded as something the candidate said. *)
Theorem turn_texts_trimmed (p : process) :
  reachable p -> Forall text_ok (history (session_state p)).
Proof.
  induction 1 as [guide | p r w Hp IH]; [constructor|].
  destruct r; unfold_handlers; split_handler;
    cbn [snd session_state history];
    repeat (apply Forall_app; split);
    try exact IH;
    repeat constructor;
    first [ eapply text_ok_parsed; eassumption
          | apply text_ok_heard; assumption
          | apply text_ok_clarification ].
Qed.

Lemma turn_texts_trimmed_witness :
  Forall text_ok
    (history
       (session_state
          (snd (handle PostChat
                  (world_at 42 (py "  Hello there  ")
                     (py "[TECH_LEAD]   Go on.  ") JNull [])
                  (snd (handle GetStart
                          (world_at 0 [] (py "  [HR_MANAGER] Welcome. ") JNull [])
                          (process_initial []))))))).
Proof.
  apply turn_texts_trimmed.
  apply reachable_handle, reachable_handle, reachable_initial.
Defined.

(** X18. No request calls a service twice: whatever the world answers,
    one request makes at most one call of Whisper, at most one of the panel
    model, at most one of the evaluator and at most one of the
    synthesizer; there is no retry anywhere. *)
Theorem one_call_per_service (r : request) (w : World) (p : process) :
  let evs := calls_of (handle r w) p in
  (count_calls is_whisper_call evs <= 1)%nat
  /\ (count_calls is_panel_call evs <= 1)%nat
  /\ (count_calls is_report_call evs <= 1)%nat
  /\ (count_calls is_synthesize_call evs <= 1)%nat.
Proof.
  cbv zeta. unfold calls_of.
  destruct r; unfold_handlers; split_handler;
    cbn [snd trace]; rewrite <- ?app_assoc;
    rewrite ?skipn_app, ?skipn_all, ?Nat.sub_diag;
    cbn; repeat split; lia.
Qed.

End SessionInvariants.

(* ================================================================== *)
(** ** More on the report and on the two service clients *)
(* ================================================================== *)

Section ServicesMore.





(** A score of [1e400] decodes to the float [inf]: it formats (["inf"]), the
    closing message is spoken, and the reply fails to render. *)
Example report_with_infinite_score :
  let report := JObj [ (py "overall_score", JNonFinite PosInf);
                       (py "recommendation", JStr (py "Hire")) ] in
  let w := world_at 400 [] [] report [] in
  let p := process_initial [] in
  generate_final_report w p
  = (Returns (ErrorReply (py "Failed to generate report") 500),
     add_events p
       [EvReportLLM (report_prompt_of p);
        EvSynthesize (ClosingMsg (JNonFinite PosInf) (JStr (py "Hire")))
          HR_Manager]).
Proof. reflexivity. Qed.

(** A float that is not finite anywhere in the report, or a lone surrogate
    in one of its strings, has the same effect. *)
Example report_that_does_not_render :
  let w report := world_at 400 [] [] report [] in
  let reply report := fst (generate_final_report (w report) (process_initial [])) in
  let failure := Returns (ErrorReply (py "Failed to generate report") 500) in
  reply (JObj [ (py "overall_score", JNum 7.5);
                (py "recommendation", JStr (py "Hire"));
                (py "scores", JObj [(py "Cultural Fit", JNonFinite NaN)]) ])
  = failure
  /\ reply (JObj [ (py "overall_score", JNum 7.5);
                   (py "recommendation", JStr (py "Hire"));
                   (py "summary", JStr [55296%N]) ])
     = failure
  /\ reply (JObj [ (py "overall_score", JNum 7.5);
                   (py "recommendation", JArr [JStr [55296%N]]) ])
     = failure
  /\ reply (JObj [ (py "overall_score", JBool true);
                   (py "recommendation", JNull) ])
     = Returns
         (ReportReply [] (ClosingMsg (JBool true) JNull) [] HR_Manager true
            (JObj [ (py "overall_score", JBool true);
                    (py "recommendation", JNull) ])).
Proof. repeat split. Qed.

Example report_after_silence :
  fst (generate_final_report (world_at 400 [] [] report_consistent [])
         (snd (chat (world_at 50 (py "   ") [] JNull [])
                 (snd (chat (world_at 42 (py "I led the migration.")
                               (py "[TECH_LEAD] Go on.") JNull [])
                         (snd (start_interview_endpoint
                                 (world_at 0 [] (py "[HR_MANAGER] Welcome.")
                                    JNull [])
                                 (process_initial []))))))))
  = Returns
      (ReportReply (py "I led the migration.")
         (ClosingMsg (JNum 7.3) (JStr (py "Hire"))) [] HR_Manager true
         report_consistent).
Proof. reflexivity. Qed.

(** The transcript of the prompt, line by line. *)
Example transcript_of_three_turns :
  prompt_transcript
    (report_prompt_of
       (snd (chat (world_at 42 (py "I led the migration.")
                     (py "[TECH_LEAD] Go on.") JNull [])
               (snd (start_interview_endpoint
                       (world_at 0 [] (py "[HR_MANAGER] Welcome.") JNull [])
                       (process_initial []))))))
  = py "Interviewer - HR Manager: Welcome." ++ newline
    ++ py "Candidate: I led the migration." ++ newline
    ++ py "Interviewer - Tech Lead: Go on.".
Proof. reflexivity. Qed.



Example audio_of_a_complete_exchange :
  synthesize_bytes (world_murf_audio ["I"%byte; "D"%byte; "3"%byte])
    (Lit (py "Welcome.")) Tech_Lead
  = ["I"%byte; "D"%byte; "3"%byte].
Proof. reflexivity. Qed.

(** X22. The voice asked of Murf: the Tech Lead speaks with
    ["en-US-cooper"], every other speaker, known or not, with
    ["en-US-natalie"]. *)
Theorem voice_of_speaker (speaker_role : str) :
  (speaker_role = Tech_Lead -> voice_of speaker_role = py "en-US-cooper")
  /\ (speaker_role <> Tech_Lead -> voice_of speaker_role = py "en-US-natalie").
Proof.
  split.
  - intros ->. reflexivity.
  - intros Hne. unfold voice_of, VOICE_MAP. cbn [voice_get].
    destruct (PyStr.eqb (py "HR Manager") speaker_role); [reflexivity|].
    destruct (PyStr.eqb (py "Tech Lead") speaker_role) eqn:E.
    + apply eqb_eq in E. symmetry in E. contradiction.
    + now destruct (PyStr.eqb (py "Default") speaker_role).
Qed.

(** X23. [transcribe_file] either returns a trimmed transcript with
    confidence 1, which is Whisper's text trimmed, or raises one of two
    errors: the missing-key error when the OpenAI key is unset or empty,
    whatever Whisper would have answered, or Whisper's exception with
    ["OpenAI Transcription failed: "] before its text. It never writes to
    the session or the guide. *)
Theorem transcribe_file_outcomes (w : World) (p : process) :
  session_state (snd (transcribe_file w p)) = session_state p
  /\ HR_GUIDE (snd (transcribe_file w p)) = HR_GUIDE p
  /\ match fst (transcribe_file w p) with
     | Returns r =>
         key_missing (OPENAI_API_KEY w) = false
         /\ (exists heard,
               whisper_text w = Returns heard /\ transcript r = strip heard)
         /\ no_leading_space (transcript r) = true
         /\ no_trailing_space (transcript r) = true
         /\ confidence r = 1
     | Raises e =>
         (key_missing (OPENAI_API_KEY w) = true
          /\ exn_str e = py "OPENAI_API_KEY is not set in .env file")
         \/ (key_missing (OPENAI_API_KEY w) = false
             /\ exists e',
                  whisper_text w = Raises e'
                  /\ exn_str e = py "OpenAI Transcription failed: " ++ exn_str e')
     end.
Proof.
  unfold transcribe_file. step_handler.
  destruct (key_missing (OPENAI_API_KEY w)) eqn:Ek.
  - cbn [fst snd session_state HR_GUIDE]. repeat split. now left.
  - destruct (whisper_text w) as [heard|e'];
      cbn [fst snd session_state HR_GUIDE transcript confidence].
    + repeat split.
      * now exists heard.
      * apply strip_no_leading.
      * apply strip_no_trailing.
    + repeat split. right. split; [reflexivity|]. now exists e'.
Qed.

End ServicesMore.

(* ================================================================== *)
(** ** The features of a transcript *)
(* ================================================================== *)

Section Features.

Variable lower : str -> str.
Variable isword : char -> bool.

Example features_of_an_answer :
  compute_basic_features ascii_lower ascii_word
    (py "Um, I also LIKE caching; you know, so it scales.")
  = {| word_count := 10; filler_count := 5;
       avg_word_len := PyFloat 3.5%float |}.
Proof. reflexivity. Qed.

(** Thirteen letters in three words: the average is the float nearest to
    13/3, which Python prints as [4.333333333333333]. *)
Example features_of_three_words :
  compute_basic_features ascii_lower ascii_word (py "Tell them: HELLO!")
  = {| word_count := 3; filler_count := 0;
       avg_word_len := PyFloat 0x1.1555555555555p+2%float |}.
Proof. reflexivity. Qed.

Example features_of_silence :
  compute_basic_features ascii_lower ascii_word (py "... ?!")
  = {| word_count := 0; filler_count := 0; avg_word_len := PyInt 0 |}.
Proof. reflexivity. Qed.

Lemma findall_words_total (run s : str) :
  list_sum (map (@length char) (findall_words isword run s))
  = (length run + length (filter isword s))%nat.
Proof.
  revert run; induction s as [|c s IH]; intros run; simpl.
  - destruct run; simpl; lia.
  - destruct (isword c).
    + rewrite IH, length_app. simpl. lia.
    + destruct run as [|d run]; simpl; rewrite IH; simpl; lia.
Qed.

Lemma findall_words_nonempty (run s : str) :
  Forall (fun word => word <> []) (findall_words isword run s).
Proof.
  revert run; induction s as [|c s IH]; intros run; simpl.
  - destruct run; repeat constructor. discriminate.
  - destruct (isword c); [apply IH|].
    destruct run; [apply IH|]. constructor; [discriminate | apply IH].
Qed.

Lemma findall_words_word_chars (run s : str) :
  forallb isword run = true ->
  Forall (fun word => forallb isword word = true)
    (findall_words isword run s).
Proof.
  revert run; induction s as [|c s IH]; intros run Hrun; simpl.
  - destruct run; repeat constructor. exact Hrun.
  - destruct (isword c) eqn:Ec.
    + apply IH. rewrite forallb_app, Hrun. simpl. now rewrite Ec.
    + destruct run; [now apply IH|]. constructor; [exact Hrun | now apply IH].
Qed.

Lemma length_le_total (words : list str) :
  Forall (fun word => word <> []) words ->
  (length words <= list_sum (map (@length char) words))%nat.
Proof.
  induction 1 as [|word words Hw Hws IH]; simpl; [lia|].
  destruct word; [congruence|]. simpl. lia.
Qed.

(** A character that is not a word character lengthens the first gap. *)
Lemma runs_of_cons_gap (c : char) (s : str) (ws : list str) :
  isword c = false -> runs_of isword s ws -> runs_of isword (c :: s) ws.
Proof.
  intros Hc H. destruct H as [gap Hgap | gap word rest ws Hgap Hne Hw Hr H].
  - apply runs_end. cbn [forallb]. now rewrite Hc.
  - change (c :: gap ++ word ++ rest) with ((c :: gap) ++ word ++ rest).
    apply runs_word; try assumption. cbn [forallb]. now rewrite Hc.
Qed.

(** The scan returns the maximal runs of what it has read and what is
    left to read. *)
Lemma findall_words_runs (s run : str) :
  forallb isword run = true ->
  runs_of isword (run ++ s) (findall_words isword run s).
Proof.
  revert run; induction s as [|c s IH]; intros run Hrun; cbn [findall_words].
  - rewrite app_nil_r. destruct run as [|d run].
    + now apply runs_end.
    + assert (H : runs_of isword ([] ++ (d :: run) ++ []) [d :: run])
        by (apply runs_word; try easy; now apply runs_end).
      cbn [app] in H. now rewrite app_nil_r in H.
  - destruct (isword c) eqn:Ec.
    + replace (run ++ c :: s) with ((run ++ [c]) ++ s)
        by (now rewrite <- app_assoc).
      apply IH. rewrite forallb_app, Hrun. cbn [forallb]. now rewrite Ec.
    + destruct run as [|d run].
      * apply runs_of_cons_gap; [exact Ec|]. now apply (IH []).
      * change ((d :: run) ++ c :: s) with ([] ++ (d :: run) ++ c :: s).
        apply runs_word; try easy.
        apply runs_of_cons_gap; [exact Ec|]. now apply (IH []).
Qed.

Lemma findall_words_gap (gap s : str) :
  forallb (fun c => negb (isword c)) gap = true ->
  findall_words isword [] (gap ++ s) = findall_words isword [] s.
Proof.
  induction gap as [|c gap IH]; [reflexivity|].
  cbn [forallb app findall_words]. intros H.
  apply andb_true_iff in H as [Hc Hgap]. apply negb_true_iff in Hc.
  rewrite Hc. now apply IH.
Qed.

Lemma findall_words_word (run word s : str) :
  forallb isword word = true ->
  findall_words isword run (word ++ s) = findall_words isword (run ++ word) s.
Proof.
  revert run; induction word as [|c word IH]; intros run H.
  - now rewrite app_nil_r.
  - cbn [forallb] in H. apply andb_true_iff in H as [Hc Hword].
    cbn [app findall_words]. rewrite Hc, IH by exact Hword.
    now rewrite <- app_assoc.
Qed.

(** There is one list of maximal runs. *)
Lemma runs_of_findall_words (s : str) (ws : list str) :
  runs_of isword s ws -> ws = findall_words isword [] s.
Proof.
  induction 1 as [gap Hgap | gap word rest ws Hgap Hne Hword Hrest H IH].
  - rewrite <- (app_nil_r gap). now rewrite findall_words_gap.
  - rewrite findall_words_gap, findall_words_word by assumption.
    cbn [app]. subst ws.
    destruct rest as [|c rest]; cbn [findall_words].
    + destruct word; [congruence | reflexivity].
    + rewrite Hrest. destruct word; [congruence | reflexivity].
Qed.

(** X24. The words of [compute_basic_features] are the maximal runs of
    word characters of the lowered transcript, and nothing else is: a list
    is the list of those runs exactly when it is the list of words. Each
    word is non-empty and made of word characters only, and together they
    hold every word character of the text. The average word length is the
    float nearest to that number of characters over the number of words; a
    text without any word character has no word and its average is the
    [int] 0 (no division by zero). *)
Theorem words_of_transcript (transcript : str) :
  let text := lower transcript in
  let f := compute_basic_features lower isword transcript in
  let words := findall_words isword [] text in
  let letters := length (filter isword text) in
  (forall ws, runs_of isword text ws <-> ws = words)
  /\ Forall (fun word => word <> [] /\ forallb isword word = true) words
  /\ word_count f = length words
  /\ list_sum (map (@length char) words) = letters
  /\ (word_count f <= letters)%nat
  /\ (word_count f = 0%nat <-> letters = 0%nat)
  /\ (letters = 0%nat -> avg_word_len f = PyInt 0)
  /\ (letters <> 0%nat ->
      avg_word_len f = PyFloat (true_div letters (word_count f))).
Proof.
  cbv zeta. unfold compute_basic_features. cbn [word_count avg_word_len].
  pose proof (findall_words_total [] (lower transcript)) as Htotal.
  pose proof (findall_words_nonempty [] (lower transcript)) as Hne.
  pose proof (@findall_words_word_chars [] (lower transcript) eq_refl) as Hw.
  pose proof (length_le_total Hne) as Hle.
  pose proof (@findall_words_runs (lower transcript) [] eq_refl) as Hruns.
  simpl in Htotal. cbn [app] in Hruns. rewrite Htotal in *.
  set (words := findall_words isword [] (lower transcript)) in *.
  set (letters := length (filter isword (lower transcript))) in *.
  assert (Hzero : length words = 0%nat <-> letters = 0%nat).
  { split; [|lia]. intros H0. destruct words; [|discriminate H0].
    simpl in Htotal. lia. }
  split; [|split; [|split; [reflexivity|split; [reflexivity|
    split; [exact Hle|split; [exact Hzero|split]]]]]].
  - intros ws. split.
    + apply runs_of_findall_words.
    + now intros ->.
  - clear -Hne Hw. induction Hne as [|x l Hx Hl IH]; [constructor|].
    inversion Hw; subst. constructor; [now split | now apply IH].
  - intros H0. apply Hzero in H0. now rewrite H0.
  - intros Hn. destruct (length words) as [|n] eqn:El; [lia|]. reflexivity.
Qed.

Lemma count_scan_skip (sub : str) (k : nat) (s : str) :
  count_scan sub k s = count sub (skipn k s).
Proof.
  unfold count. revert k; induction s as [|c s IH]; intros k.
  - now destruct k.
  - destruct k as [|k]; [reflexivity|]. simpl skipn. simpl. apply IH.
Qed.

Lemma count_cons (sub : str) (c : char) (s : str) :
  count sub (c :: s)
  = if startswith (c :: s) sub
    then S (count sub (skipn (length sub - 1) s))
    else count sub s.
Proof.
  unfold count at 1. simpl count_scan.
  destruct (startswith (c :: s) sub); [|reflexivity].
  now rewrite count_scan_skip.
Qed.

Lemma count_zero_iff (sub s : str) :
  count sub s = 0%nat <-> contains sub s = false \/ sub = [] /\ s = [].
Proof.
  induction s as [|c s IH].
  - destruct sub; simpl; (split; [intros _ | reflexivity]);
      [right; now split | now left].
  - rewrite count_cons, contains_cons.
    destruct (startswith (c :: s) sub) eqn:E.
    + split; [discriminate|]. intros [H|[_ H]]; discriminate H.
    + rewrite IH. cbn [orb]. split.
      * intros [H|[-> _]]; [now left | discriminate E].
      * intros [H|[_ H]]; [now left | discriminate H].
Qed.

Lemma list_sum_zero (l : list nat) :
  list_sum l = 0%nat <-> Forall (fun n => n = 0%nat) l.
Proof.
  induction l as [|n l IH]; simpl.
  - split; [constructor | reflexivity].
  - split.
    + intros H. constructor; [lia|]. apply IH. lia.
    + intros H. inversion H; subst. apply IH in H3. lia.
Qed.

(** X25. The filler count adds, over the six fillers, the occurrences of
    the filler as a substring of the lowered transcript; it is 0 exactly
    when none of the six occurs anywhere in it, inside a longer word
    included. *)
Theorem filler_count_zero (transcript : str) :
  filler_count (compute_basic_features lower isword transcript) = 0%nat
  <-> forall f, In f FILLERS -> contains f (lower transcript) = false.
Proof.
  unfold compute_basic_features. cbn [filler_count].
  rewrite list_sum_zero, Forall_map, Forall_forall.
  split; intros H f Hf; specialize (H f Hf).
  - apply count_zero_iff in H as [H|[H _]]; [exact H|].
    subst f. simpl in Hf.
    repeat (destruct Hf as [Hf|Hf]; [discriminate Hf|]). contradiction.
  - apply count_zero_iff. now left.
Qed.

Example filler_inside_a_word :
  filler_count
    (compute_basic_features ascii_lower ascii_word (py "A SOLID summary"))
  = 2%nat.
Proof. reflexivity. Qed.

End Features.

(* ================================================================== *)
(** ** After the time limit *)
(* ================================================================== *)

Section TimeLimit.





(** At exactly 300 seconds the session is not yet timed out. *)
Example not_timed_out_at_the_limit :
  timed_out (world_at 300 [] [] JNull [])
    (snd (start_interview_endpoint
            (world_at 0 [] (py "[HR_MANAGER] Welcome.") JNull [])
            (process_initial [])))
  = false.
Proof. reflexivity. Qed.

End TimeLimit.

(* ================================================================== *)
(** ** The shape of the replies of [/chat] *)
(* ================================================================== *)

Section ReplyShape.

Lemma parsed_speaker_of (raw speaker said : str) (done : bool) :
  parse_panel_speaker_and_text raw = (speaker, said, done) ->
  speaker = HR_Manager \/ speaker = Tech_Lead.
Proof.
  intros E. replace speaker with (parsed_speaker raw).
  - apply parsed_speaker_cases.
  - unfold parsed_speaker. now rewrite E.
Qed.

(** X27. A reply of [/chat] is one of three: a turn, with [is_end] false
    and one of the two panelists as speaker; a report, with [is_end] true
    and the HR Manager as speaker; or a failure, with status 500. So
    [is_end] is true exactly when the reply carries a report. *)
Theorem chat_reply_shape (w : World) (p : process) (r : response) :
  fst (chat w p) = Returns r ->
  match r with
  | TurnReply _ _ _ speaker is_end =>
      is_end = false /\ (speaker = HR_Manager \/ speaker = Tech_Lead)
  | ReportReply _ _ _ speaker is_end _ =>
      is_end = true /\ speaker = HR_Manager
  | ErrorReply _ code => code = 500%Z
  | StartReply _ _ _ | UploadReply _ _ _ => False
  end.
Proof.
  set (shape := fun r : response =>
         match r with
         | TurnReply _ _ _ speaker is_end =>
             is_end = false /\ (speaker = HR_Manager \/ speaker = Tech_Lead)
         | ReportReply _ _ _ speaker is_end _ =>
             is_end = true /\ speaker = HR_Manager
         | ErrorReply _ code => code = 500%Z
         | StartReply _ _ _ | UploadReply _ _ _ => False
         end).
  change (fst (chat w p) = Returns r -> shape r).
  unfold_handlers. split_handler; cbn [fst];
    intros H; try discriminate H; injection H as <-;
    subst shape; cbv beta iota;
    try reflexivity; try (split; reflexivity);
    (split; [reflexivity|]);
    first [ now left | eapply parsed_speaker_of; eassumption ].
Qed.

Lemma chat_reply_shape_witness :
  match TurnReply [] clarification [] HR_Manager false with
  | TurnReply _ _ _ speaker is_end =>
      is_end = false /\ (speaker = HR_Manager \/ speaker = Tech_Lead)
  | ReportReply _ _ _ speaker is_end _ =>
      is_end = true /\ speaker = HR_Manager
  | ErrorReply _ code => code = 500%Z
  | StartReply _ _ _ | UploadReply _ _ _ => False
  end.
Proof.
  apply (@chat_reply_shape
           (world_no_murf_key 42 (py "   ") (py "[HR_MANAGER] Welcome.") JNull)
           (process_initial [])).
  reflexivity.
Defined.

End ReplyShape.
